(** * The opportunity agent: reconciliation pipeline of [main.py]

    A shallow embedding of the retention store, the extractor, the
    merge computation and the reconciler loop of [src/main.py], and the
    properties the specification states about them.

    Python values are embedded as follows: [str] as [string] (a string
    of bytes: the text operations below act on ASCII, any other byte is
    left alone), [int] as [Z], [float] as [pyfloat] (a binary64 value
    given by its integer mantissa and binary exponent, so no rounding is
    hidden), [set] of [str] as [gset string], [dict] as an association
    list in insertion order, a raised exception as [Raise]. *)

From Stdlib Require Import ZArith QArith String Ascii List Lia.
From stdpp Require Import base gmap strings list pretty.
Close Scope Q_scope.
Open Scope string_scope.

(** ** Exceptions *)

(** The exception classes the program distinguishes.  All of them are
    subclasses of [Exception]; [OtherError] is any other subclass. *)
Inductive exn : Type :=
  | HttpError
  | ValueError
  | TypeError
  | OverflowError
  | OtherError.

(** The result of evaluating a Python expression. *)
Inductive outcome (A : Type) : Type :=
  | Ret (a : A)
  | Raise (e : exn).
Arguments Ret {A} a.
Arguments Raise {A} e.

Definition obind {A B} (x : outcome A) (f : A -> outcome B) : outcome B :=
  match x with
  | Ret a => f a
  | Raise e => Raise e
  end.

Notation "'let!' x ':=' e 'in' k" := (obind e (fun x => k))
  (at level 10, x name, e at level 100, k at level 200).

#[global] Instance exn_eq_dec : EqDecision exn.
Proof. solve_decision. Defined.

(** ** Text *)

Module Py.

Definition chars (s : string) : list ascii := list_ascii_of_string s.
Definition text (l : list ascii) : string := string_of_list_ascii l.

(** [str.find(c)] for a one-character needle: index of the first
    occurrence, or -1. *)
Fixpoint find_from (c : ascii) (s : string) (i : Z) : Z :=
  match s with
  | EmptyString => (-1)%Z
  | String a r => if Ascii.eqb a c then i else find_from c r (i + 1)%Z
  end.
Definition find (c : ascii) (s : string) : Z := find_from c s 0.

(** [str.rfind(c)]: index of the last occurrence, or -1. *)
Fixpoint rfind_from (c : ascii) (s : string) (i acc : Z) : Z :=
  match s with
  | EmptyString => acc
  | String a r => rfind_from c r (i + 1)%Z (if Ascii.eqb a c then i else acc)
  end.
Definition rfind (c : ascii) (s : string) : Z := rfind_from c s 0 (-1)%Z.

Definition len (s : string) : Z := Z.of_nat (String.length s).

(** A slice bound as Python normalises it: a negative bound counts from
    the end, and the result is clipped to [0, len]. *)
Definition clip (n : Z) (i : Z) : Z :=
  let j := if (i <? 0)%Z then (i + n)%Z else i in
  Z.max 0 (Z.min n j).

(** [s[a:b]] *)
Definition slice (a b : Z) (s : string) : string :=
  let lo := clip (len s) a in
  let hi := clip (len s) b in
  substring (Z.to_nat lo) (Z.to_nat (hi - lo)) s.

(** [c in s] for a one-character needle. *)
Definition has_char (c : ascii) (s : string) : bool :=
  negb (find c s =? -1)%Z.

(** [sub in s] *)
Fixpoint contains (sub s : string) : bool :=
  if String.prefix sub s then true
  else match s with
       | EmptyString => false
       | String _ r => contains sub r
       end.

(** The ASCII white space of [str.strip()], [int()] and [float()]. *)
Definition is_space (c : ascii) : bool :=
  let n := nat_of_ascii c in
  (((9 <=? n) && (n <=? 13)) || ((28 <=? n) && (n <=? 32)))%nat.

Fixpoint lstrip_chars (l : list ascii) : list ascii :=
  match l with
  | c :: r => if is_space c then lstrip_chars r else l
  | [] => []
  end.

Definition strip_chars (l : list ascii) : list ascii :=
  rev (lstrip_chars (rev (lstrip_chars l))).

(** [s.strip()] *)
Definition strip (s : string) : string := text (strip_chars (chars s)).

(** [s.split(c)[0]]: the text before the first [c], the whole text when
    there is none. *)
Fixpoint before (c : ascii) (s : string) : string :=
  match s with
  | EmptyString => EmptyString
  | String a r => if Ascii.eqb a c then EmptyString else String a (before c r)
  end.

Definition lower_char (c : ascii) : ascii :=
  let n := nat_of_ascii c in
  if ((65 <=? n) && (n <=? 90))%nat then ascii_of_nat (n + 32) else c.

(** [s.lower()] *)
Fixpoint lower (s : string) : string :=
  match s with
  | EmptyString => EmptyString
  | String a r => String (lower_char a) (lower r)
  end.

(** [str(n)] for an [int]. *)
Definition str_of_int (n : Z) : string := pretty n.

(** *** Digits *)

Definition digit_val (c : ascii) : option Z :=
  let n := nat_of_ascii c in
  if ((48 <=? n) && (n <=? 57))%nat then Some (Z.of_nat (n - 48)) else None.

Definition hex_val (c : ascii) : option Z :=
  let n := nat_of_ascii c in
  if ((48 <=? n) && (n <=? 57))%nat then Some (Z.of_nat (n - 48))
  else if ((97 <=? n) && (n <=? 102))%nat then Some (Z.of_nat (n - 87))
  else if ((65 <=? n) && (n <=? 70))%nat then Some (Z.of_nat (n - 55))
  else None.

Definition underscore : ascii := "_"%char.

(** A run of digits in the given base with single underscores allowed
    between digits, as [int()] and [float()] read them: [acc] is the
    value so far and [prev] tells whether the previous character was a
    digit.  None when the run is ill-formed. *)
Fixpoint digits_from (val : ascii -> option Z) (base : Z)
    (l : list ascii) (acc : Z) (prev : bool) : option Z :=
  match l with
  | [] => if prev then Some acc else None
  | c :: r =>
      if Ascii.eqb c underscore then
        if prev then
          match r with
          | [] => None
          | _ => digits_from val base r acc false
          end
        else None
      else
        match val c with
        | Some d => digits_from val base r (acc * base + d)%Z true
        | None => None
        end
  end.

(** An optional sign in front of a literal: whether it is a minus,
    and the rest. *)
Definition split_sign (l : list ascii) : bool * list ascii :=
  match l with
  | "-"%char :: r => (true, r)
  | "+"%char :: r => (false, r)
  | _ => (false, l)
  end.

(** The optional [0x] prefix of a hexadecimal literal, with the one
    underscore that may follow it. *)
Definition skip_0x (l : list ascii) : list ascii :=
  match l with
  | "0"%char :: x :: r =>
      if Ascii.eqb (lower_char x) "x"%char then
        match r with
        | u :: r' => if Ascii.eqb u underscore then r' else r
        | [] => r
        end
      else l
  | _ => l
  end.

(** [int(s, 16)]: white space around, an optional sign, an optional
    [0x] prefix, then hexadecimal digits.  [ValueError] otherwise. *)
Definition int16 (s : string) : outcome Z :=
  let '(neg, l1) := split_sign (strip_chars (chars s)) in
  match digits_from hex_val 16 (skip_0x l1) 0 false with
  | Some n => Ret (if neg then (- n)%Z else n)
  | None => Raise ValueError
  end.

(** *** Floats *)

(** A binary64 value: not-a-number, an infinity, or the finite value
    [m * 2^e]. *)
Inductive pyfloat : Type :=
  | FNan
  | FInf (neg : bool)
  | FFin (m e : Z).

(** A Python number: an [int] or a [float]. *)
Inductive pynum : Type :=
  | NInt (n : Z)
  | NFloat (f : pyfloat).

(** [n / d] rounded to the nearest integer, ties to the even one
    ([d] positive). *)
Definition round_half_even (n d : Z) : Z :=
  let q := (n / d)%Z in
  let r := (n mod d)%Z in
  if (2 * r <? d)%Z then q
  else if (d <? 2 * r)%Z then (q + 1)%Z
  else if Z.even q then q else (q + 1)%Z.

(** [d * 2^k <= n], for [k] of either sign. *)
Definition ge_pow2 (n d k : Z) : bool :=
  if (0 <=? k)%Z then (d * 2 ^ k <=? n)%Z else (d <=? n * 2 ^ (- k))%Z.

(** The binary64 value nearest to the rational [n / d] ([d] positive),
    ties to even: 53 bits of mantissa, exponents down to the subnormal
    -1074, and an infinity once the rounded value reaches [2^1024]. *)
Definition float_of_ratio (n d : Z) : pyfloat :=
  let neg := (n <? 0)%Z in
  let a := Z.abs n in
  if (a =? 0)%Z then FFin 0 0
  else
    let k0 := (Z.log2 a - Z.log2 d)%Z in
    let k := if ge_pow2 a d k0 then k0 else (k0 - 1)%Z in
    let ex := Z.max (k - 52) (-1074) in
    let mant :=
      if (0 <=? ex)%Z then round_half_even a (d * 2 ^ ex)
      else round_half_even (a * 2 ^ (- ex)) d in
    if (0 <? mant)%Z && (1024 <=? Z.log2 mant + ex)%Z then FInf neg
    else FFin (if neg then (- mant)%Z else mant) ex.

(** The numerator and denominator of a finite float. *)
Definition fin_num (m e : Z) : Z := if (0 <=? e)%Z then (m * 2 ^ e)%Z else m.
Definition fin_den (e : Z) : Z := if (0 <=? e)%Z then 1%Z else (2 ^ (- e))%Z.

(** Conversion of an [int] to [float], as the arithmetic operators do
    it: [OverflowError] when the nearest float is not finite. *)
Definition float_of_int (n : Z) : outcome pyfloat :=
  match float_of_ratio n 1 with
  | FFin m e => Ret (FFin m e)
  | _ => Raise OverflowError
  end.

(** [a - b] on floats. *)
Definition fsub (a b : pyfloat) : pyfloat :=
  match a, b with
  | FNan, _ | _, FNan => FNan
  | FInf s, FInf t => if Bool.eqb s t then FNan else FInf s
  | FInf s, FFin _ _ => FInf s
  | FFin _ _, FInf t => FInf (negb t)
  | FFin m1 e1, FFin m2 e2 =>
      float_of_ratio (fin_num m1 e1 * fin_den e2 - fin_num m2 e2 * fin_den e1)
                     (fin_den e1 * fin_den e2)
  end.

(** [a / c] for a float [a] and a positive integer constant [c] that a
    float holds exactly. *)
Definition fdiv_const (a : pyfloat) (c : Z) : pyfloat :=
  match a with
  | FNan => FNan
  | FInf s => FInf s
  | FFin m e => float_of_ratio (fin_num m e) (fin_den e * c)
  end.

(** [x < q] and [q <= x] for a number [x] and a rational [q]; both are
    false on not-a-number, as every comparison of Python is. *)
Definition float_ltb_Q (f : pyfloat) (q : Q) : bool :=
  match f with
  | FNan => false
  | FInf s => s
  | FFin m e => (fin_num m e * Zpos (Qden q) <? Qnum q * fin_den e)%Z
  end.


Definition num_ltb_Q (x : pynum) (q : Q) : bool :=
  match x with
  | NInt n => (n * Zpos (Qden q) <? Qnum q)%Z
  | NFloat f => float_ltb_Q f q
  end.


(** [round(x)] for a float: the nearest [int], ties to even;
    [ValueError] on not-a-number and [OverflowError] on an infinity. *)
Definition round_float (f : pyfloat) : outcome Z :=
  match f with
  | FNan => Raise ValueError
  | FInf _ => Raise OverflowError
  | FFin m e => Ret (round_half_even (fin_num m e) (fin_den e))
  end.

(** Underscores of a numeric literal: each one stands between two
    digits.  Returns the text without them. *)
Fixpoint drop_underscores (l : list ascii) (prev : option ascii)
    : option (list ascii) :=
  let is_digit o := match o with
                    | Some c => match digit_val c with
                                | Some _ => true
                                | None => false
                                end
                    | None => false
                    end in
  match l with
  | [] => match prev with
          | Some p => if Ascii.eqb p underscore then None else Some []
          | None => Some []
          end
  | c :: r =>
      if Ascii.eqb c underscore then
        if is_digit prev then drop_underscores r (Some c) else None
      else
        let ok := match prev with
                  | Some p => if Ascii.eqb p underscore
                              then is_digit (Some c) else true
                  | None => true
                  end in
        if ok then option_map (cons c) (drop_underscores r (Some c)) else None
  end.

(** The longest prefix of decimal digits: its value appended to [acc],
    how many digits it has, and the rest. *)
Fixpoint take_digits (l : list ascii) (acc : Z) (n : nat)
    : Z * nat * list ascii :=
  match l with
  | c :: r =>
      match digit_val c with
      | Some d => take_digits r (acc * 10 + d)%Z (S n)
      | None => (acc, n, l)
      end
  | [] => (acc, n, l)
  end.

(** The exponent part of a decimal literal: empty, or [e], an optional
    sign and at least one digit. *)
Definition exponent_part (l : list ascii) : option Z :=
  match l with
  | [] => Some 0%Z
  | c :: r =>
      if Ascii.eqb (lower_char c) "e"%char then
        let '(neg, r1) := split_sign r in
        match take_digits r1 0 0 with
        | (_, O, _) => None
        | (x, _, []) => Some (if neg then (- x)%Z else x)
        | _ => None
        end
      else None
  end.

(** [float(s)] for a [str]: white space around, an optional sign, then
    [inf], [infinity] or [nan] in any case, or a decimal literal with an
    optional fraction and exponent.  [ValueError] otherwise. *)
Definition float_of_str (s : string) : outcome pyfloat :=
  match drop_underscores (strip_chars (chars s)) None with
  | None => Raise ValueError
  | Some l =>
      let '(neg, l1) := split_sign l in
      let name := lower (text l1) in
      if String.eqb name "inf" || String.eqb name "infinity" then Ret (FInf neg)
      else if String.eqb name "nan" then Ret FNan
      else
        let '(ip, ni, r1) := take_digits l1 0 0 in
        let '(mant, nf, r2) :=
          match r1 with
          | "."%char :: r => take_digits r ip 0
          | _ => (ip, O, r1)
          end in
        match (ni + nf)%nat, exponent_part r2 with
        | O, _ | _, None => Raise ValueError
        | _, Some ex =>
            let sc := (ex - Z.of_nat nf)%Z in
            let m := if neg then (- mant)%Z else mant in
            Ret (if (0 <=? sc)%Z then float_of_ratio (m * 10 ^ sc) 1
                 else float_of_ratio m (10 ^ (- sc)))
        end
  end.

End Py.

(** ** JSON values and dictionaries *)

(** What [json.loads] returns.  An object is a [dict]: its pairs are
    kept in insertion order and a key occurs once. *)
#[local] Set Warnings "-register-all".
Inductive json : Type :=
  | JNull
  | JBool (b : bool)
  | JNum (x : Py.pynum)
  | JStr (s : string)
  | JArr (l : list json)
  | JObj (d : list (string * json)).

Definition dict : Type := list (string * json).

(** [key in d] *)
Fixpoint dict_mem (key : string) (d : dict) : bool :=
  match d with
  | [] => false
  | (k, _) :: r => if String.eqb k key then true else dict_mem key r
  end.

(** [d.get(key)] *)
Fixpoint dict_get (key : string) (d : dict) : option json :=
  match d with
  | [] => None
  | (k, v) :: r => if String.eqb k key then Some v else dict_get key r
  end.

(** [d.get(key, default)] *)
Definition dict_get_default (key : string) (default : json) (d : dict) : json :=
  match dict_get key d with
  | Some v => v
  | None => default
  end.

(** [d[key] = v]: a key already present keeps its place. *)
Fixpoint dict_set (key : string) (v : json) (d : dict) : dict :=
  match d with
  | [] => [(key, v)]
  | (k, w) :: r =>
      if String.eqb k key then (k, v) :: r else (k, w) :: dict_set key v r
  end.

Definition dict_keys (d : dict) : list string := map fst d.

(** Equality of two numbers, [bool] counting as 0 and 1: exact, and
    false as soon as one side is not-a-number. *)
Definition num_eqb (x y : Py.pynum) : bool :=
  let fin z := match z with
               | Py.NInt n => Some (n, 1%Z)
               | Py.NFloat (Py.FFin m e) => Some (Py.fin_num m e, Py.fin_den e)
               | _ => None
               end in
  match fin x, fin y with
  | Some (a, b), Some (c, d) => (a * d =? c * b)%Z
  | _, _ =>
      match x, y with
      | Py.NFloat (Py.FInf s), Py.NFloat (Py.FInf t) => Bool.eqb s t
      | _, _ => false
      end
  end.

Definition as_num (v : json) : option Py.pynum :=
  match v with
  | JBool b => Some (Py.NInt (if b then 1 else 0))
  | JNum x => Some x
  | _ => None
  end.

(** [a == b] on JSON values: strings by their text, numbers by value,
    arrays element by element, objects key by key. *)
Fixpoint py_eq (a b : json) {struct a} : bool :=
  match a, b with
  | JNull, JNull => true
  | JStr s, JStr t => String.eqb s t
  | JArr l, JArr l' =>
      (fix go (l l' : list json) : bool :=
         match l, l' with
         | [], [] => true
         | x :: r, y :: r' => py_eq x y && go r r'
         | _, _ => false
         end) l l'
  | JObj d, JObj d' =>
      (length d =? length d')%nat &&
      (fix go (d : list (string * json)) : bool :=
         match d with
         | [] => true
         | (k, v) :: r =>
             match dict_get k d' with
             | Some v' => py_eq v v' && go r
             | None => false
             end
         end) d
  | JBool t, _ =>
      match as_num b with
      | Some y => num_eqb (Py.NInt (if t then 1 else 0)) y
      | None => false
      end
  | JNum x, _ =>
      match as_num b with
      | Some y => num_eqb x y
      | None => false
      end
  | _, _ => false
  end.

(** ** Retention store *)

(** The backing file [processed_emails.json] as [json.load] sees it:
    text that does not decode, or the array of identifiers that
    [save_processed_email] writes.  The file being absent is [None]. *)
Inductive file_content : Type :=
  | Unparsable
  | IdArray (ids : list string).

Definition processed_file : Type := option file_content.

(** [time.time()]: a finite float, the clock reading [(m, e)] standing
    for [m * 2^e] seconds.  One reading serves a whole load. *)
Definition time_time (now : Z * Z) : Py.pyfloat :=
  Py.FFin (fst now) (snd now).

(** [get_email_age_days]: the age in days that the identifier encodes,
    0 when it is not a hexadecimal number.  An identifier too large for
    a float raises [OverflowError], which the function does not catch. *)
Definition get_email_age_days (now : Z * Z) (message_id : string)
    : outcome Py.pynum :=
  let body :=
    let! n := Py.int16 message_id in
    let timestamp_ms := Z.shiftr n 16 in
    let! f := Py.float_of_int timestamp_ms in
    let timestamp_s := Py.fdiv_const f 1000 in
    Ret (Py.NFloat
           (Py.fdiv_const (Py.fsub (time_time now) timestamp_s)
                          (24 * 60 * 60))) in
  match body with
  | Raise ValueError | Raise TypeError => Ret (Py.NInt 0)
  | r => r
  end.

(** The set comprehension of [load_processed_emails]. *)
Fixpoint recent_ids (now : Z * Z) (retention_days : Q)
    (processed_ids : list string)
    : outcome (gset string) :=
  match processed_ids with
  | [] => Ret ∅
  | msg_id :: rest =>
      let! age := get_email_age_days now msg_id in
      let! s := recent_ids now retention_days rest in
      Ret (if Py.num_ltb_Q age retention_days then {[msg_id]} ∪ s else s)
  end.

(** [load_processed_emails]: the set of identifiers to skip and the
    backing file as the call leaves it. *)
Definition load_processed_emails (now : Z * Z) (retention_days : Q)
    (file : processed_file) : outcome (gset string * processed_file) :=
  match file with
  | None => Ret (∅, file)
  | Some Unparsable => Ret (∅, file)
  | Some (IdArray processed_ids) =>
      let! recent := recent_ids now retention_days processed_ids in
      if bool_decide (size recent ≠ length processed_ids)
      then Ret (recent, Some (IdArray (elements recent)))
      else Ret (recent, file)
  end.

(** [save_processed_email]: the set after the insertion and the file
    written from it. *)
Definition save_processed_email (email_id : string) (processed_ids : gset string)
    : gset string * processed_file :=
  let s := processed_ids ∪ {[email_id]} in
  (s, Some (IdArray (elements s))).

(** The default of [retention_days]. *)
Definition RETENTION_DAYS : Q := 7%Q.

(** ** External collaborators *)

Record attachment : Type := {
  att_id : string;
  att_filename : string
}.

(** The dictionary [get_email_metadata] returns. *)
Record email_metadata : Type := {
  m_id : string;
  m_threadId : string;
  m_sender_raw : string;
  m_sender_email : string;
  m_subject : string;
  m_body : string;
  m_attachment_ids : list attachment
}.

(** The dictionary [email_details] that [main] builds. *)
Record email_details : Type := {
  d_id : string;
  d_threadId : string;
  d_sender_raw : string;
  d_sender_email : string;
  d_subject : string;
  d_body : string;
  d_attachment_text : string
}.

(** The three prompts of the program, by what they interpolate. *)
Inductive prompt : Type :=
  | OpportunityPrompt (email_text : string)
  | InitialPrompt (resume_text subject sender_raw body attachment_text : string)
  | UpdatePrompt (subject body attachment_text : string).

(** The mailbox, the model, the spreadsheet (whose state has type [W]),
    the clock, the notification channel and the JSON decoder.

    [json_loads] is [json.loads] on the text [parse_ai_response] hands
    it, which is empty or begins with an opening brace: a successful
    decode is an object, and [None] is [json.JSONDecodeError].
    [get_email_metadata] returns [None] for every failure (the source
    wraps its whole body in [try]); [fetch_and_parse_attachments]
    catches the failure of each attachment. [find] returns the row of
    the first matching cell. *)
Record services (W : Type) : Type := {
  json_loads : string -> option dict;
  list_messages : outcome (list string);
  get_email_metadata : string -> option email_metadata;
  fetch_and_parse_attachments : string -> list attachment -> string;
  generate_content : prompt -> outcome string;
  col_values : W -> nat -> outcome (list string);
  find : W -> string -> outcome (option nat);
  row_values : W -> nat -> outcome (list string);
  append_row : W -> list json -> outcome W;
  update : W -> nat -> list json -> outcome W;
  batch_update : W -> list (nat * nat) -> outcome W;
  now : Z * Z;
  strftime : string;
  resume_text : string;
  telegram_configured : bool
}.
Arguments json_loads {W} _ _.
Arguments list_messages {W} _.
Arguments get_email_metadata {W} _ _.
Arguments fetch_and_parse_attachments {W} _ _ _.
Arguments generate_content {W} _ _.
Arguments col_values {W} _ _ _.
Arguments find {W} _ _ _.
Arguments row_values {W} _ _ _.
Arguments append_row {W} _ _ _.
Arguments update {W} _ _ _.
Arguments batch_update {W} _ _ _.
Arguments now {W} _.
Arguments strftime {W} _.
Arguments resume_text {W} _.
Arguments telegram_configured {W} _.

Definition TRUSTED_DOMAINS : list string := ["iitm.ac.in"].

Definition OPPORTUNITY_KEYWORDS : list string :=
  ["internship"; "hiring"; "research fellowship"; "research internship";
   "fellowship"; "recruiting"; "job alert"; "job opportunity"].

Definition RELEVANCE_KEY : string := "Relevance Score (1-10)".

(** ** Extractor *)

Section Extractor.
Context {W : Type} (sv : services W).

(** [is_opportunity_ai_check]: a failing model call is not caught here. *)
Definition is_opportunity_ai_check (email_text : string) : outcome bool :=
  let! response := generate_content sv (OpportunityPrompt email_text) in
  Ret (Py.contains "yes" (Py.lower response)).

(** [parse_ai_response] *)
Definition parse_ai_response (response_text : string) : option dict :=
  let json_start := Py.find "{"%char response_text in
  let json_end := (Py.rfind "}"%char response_text + 1)%Z in
  if (json_start =? -1)%Z || (json_end =? 0)%Z then None
  else json_loads sv (Py.slice json_start json_end response_text).

(** The body of the inner [try] of [extract_initial_details_with_ai]:
    [max(1, min(10, round(score)))], a [str] first going through
    [float()]. *)
Definition relevance_score (score : json) : outcome Z :=
  let! rounded :=
    match score with
    | JStr s =>
        let s1 := if Py.has_char "/"%char s then Py.before "/"%char s else s in
        let! x := Py.float_of_str (Py.strip s1) in
        Py.round_float x
    | JNum (Py.NInt n) => Ret n
    | JNum (Py.NFloat x) => Py.round_float x
    | JBool b => Ret (if b then 1 else 0)%Z
    | JNull | JArr _ | JObj _ => Raise TypeError
    end in
  Ret (Z.max 1 (Z.min 10 rounded)).

(** The validation of the relevance score: the dictionary with the
    score rewritten, or the exception that leaves the inner [try]. *)
Definition validate_relevance (extracted_data : dict) : outcome dict :=
  match dict_get RELEVANCE_KEY extracted_data with
  | None => Ret extracted_data
  | Some score =>
      match relevance_score score with
      | Ret n => Ret (dict_set RELEVANCE_KEY (JStr (Py.str_of_int n)) extracted_data)
      | Raise ValueError | Raise TypeError =>
          Ret (dict_set RELEVANCE_KEY (JStr "3") extracted_data)
      | Raise e => Raise e
      end
  end.

(** [extract_initial_details_with_ai]: every exception of the model
    call and of the validation ends in [None]. *)
Definition extract_initial_details_with_ai (email : email_details)
    (resume : string) : option dict :=
  let body :=
    let! response :=
      generate_content sv
        (InitialPrompt resume (d_subject email) (d_sender_raw email)
           (d_body email) (Py.slice 0 4000 (d_attachment_text email))) in
    match parse_ai_response response with
    | None => Ret None
    | Some [] => Ret (Some [])
    | Some extracted_data =>
        let! validated := validate_relevance extracted_data in
        Ret (Some validated)
    end in
  match body with
  | Ret r => r
  | Raise _ => None
  end.

(** [update_details_with_ai]: a failing model call is not caught here. *)
Definition update_details_with_ai (new_email : email_details)
    : outcome (option dict) :=
  let! response :=
    generate_content sv
      (UpdatePrompt (d_subject new_email) (d_body new_email)
         (d_attachment_text new_email)) in
  Ret (parse_ai_response response).

(** [format_row_from_json] *)
Definition format_row_from_json (thread_id : string) (email : email_details)
    (extracted_data : dict) : list json :=
  let field k := dict_get_default k (JStr "N/A") extracted_data in
  [ JStr thread_id; JStr (strftime sv);
    field "Application Deadline"; JStr (d_sender_raw email);
    field "Institution/Company";
    dict_get_default "Eligibility" (JStr "All") extracted_data;
    field "Role Title";
    field "Opportunity Type"; field "Role Field";
    field "Location"; field "Work Mode";
    field "Duration"; field "Time Commitment";
    field "Stipend Details"; field "Required Skills";
    field "Job Description (JD)"; field "Application Link";
    field RELEVANCE_KEY; JStr (d_subject email) ].

End Extractor.

(** ** Merge of a follow-up into a stored row *)

(** [{header: (row_values[i] if i < len(row_values) else "") ...}] *)
Fixpoint original_data_dict_from (column_headers row_values : list string)
    (acc : dict) : dict :=
  match column_headers with
  | [] => acc
  | header :: hs =>
      let v := match row_values with
               | x :: _ => x
               | [] => ""
               end in
      original_data_dict_from hs (tl row_values) (dict_set header (JStr v) acc)
  end.

Definition original_data_dict (column_headers row_values : list string) : dict :=
  original_data_dict_from column_headers row_values [].

(** [column_headers.index(key)] *)
Fixpoint list_index (key : string) (l : list string) : option nat :=
  match l with
  | [] => None
  | h :: r => if String.eqb h key then Some 0%nat
              else option_map S (list_index key r)
  end.

(** The local variables of the merge loop. *)
Record merge_state : Type := {
  merged_data : dict;
  has_changed : bool;
  cells_to_format : list (nat * nat)
}.

(** The guard of the merge loop. *)
Definition overwrites (merged : dict) (key : string) (new_value : json) : bool :=
  dict_mem key merged
  && negb (py_eq new_value (JStr "N/A"))
  && negb (py_eq (dict_get_default key JNull merged) new_value).

(** One iteration of [for key, new_value in updated_data_json.items()]. *)
Definition merge_step (column_headers : list string) (row : nat)
    (st : merge_state) (item : string * json) : merge_state :=
  let '(key, new_value) := item in
  if overwrites (merged_data st) key new_value then
    {| merged_data := dict_set key new_value (merged_data st);
       has_changed := true;
       cells_to_format :=
         match list_index key column_headers with
         | Some i => cells_to_format st ++ [(row, S i)]
         | None => cells_to_format st
         end |}
  else st.

(** The whole loop, from the copy of the stored values. *)
Definition merge (column_headers : list string) (row : nat)
    (original : dict) (updated_data_json : dict) : merge_state :=
  fold_left (merge_step column_headers row) updated_data_json
    {| merged_data := original; has_changed := false; cells_to_format := [] |}.

(** [[merged_data.get(h, "") for h in column_headers]] *)
Definition final_row_values (column_headers : list string) (merged : dict)
    : list json :=
  map (fun h => dict_get_default h (JStr "") merged) column_headers.

(** ** Reconciler *)

(** What a run does to the outside, in order.  [EvRowNotFound] is not an
    effect: it marks the [continue] taken when a known thread has no
    row. *)
Inductive event : Type :=
  | EvSave (email_id : string)
  | EvAppendRow (row : list json)
  | EvUpdate (row : nat) (values : list json)
  | EvBatchUpdate (cells : list (nat * nat))
  | EvSend (new_opportunities : list dict) (updated : list (dict * dict))
  | EvRowNotFound (email_id : string).

(** The local variables of [main] together with the backing file, the
    spreadsheet and the effects so far. *)
Record run_state (W : Type) : Type := {
  processed_email_ids : gset string;
  existing_thread_ids : gset string;
  new_opportunities_to_notify : list dict;
  updated_opportunities_to_notify : list (dict * dict);
  file : processed_file;
  worksheet : W;
  trace : list event
}.
Arguments processed_email_ids {W} _.
Arguments existing_thread_ids {W} _.
Arguments new_opportunities_to_notify {W} _.
Arguments updated_opportunities_to_notify {W} _.
Arguments file {W} _.
Arguments worksheet {W} _.
Arguments trace {W} _.

(** A statement: it runs from a state and ends normally with a value or
    with an exception, and in both cases leaves a state. *)
Definition stmt (S A : Type) : Type := S -> outcome A * S.

Definition ret {S A} (a : A) : stmt S A := fun s => (Ret a, s).
Definition raise {S A} (e : exn) : stmt S A := fun s => (Raise e, s).
Definition bind {S A B} (m : stmt S A) (k : A -> stmt S B) : stmt S B :=
  fun s => match m s with
           | (Ret a, s') => k a s'
           | (Raise e, s') => (Raise e, s')
           end.
Definition get {S} : stmt S S := fun s => (Ret s, s).
Definition modify {S} (f : S -> S) : stmt S unit := fun s => (Ret tt, f s).
Definition lift {S A} (x : outcome A) : stmt S A := fun s => (x, s).

(** [try: m except Exception: handler] *)
Definition try_except {S A} (m : stmt S A) (handler : exn -> stmt S A)
    : stmt S A :=
  fun s => match m s with
           | (Ret a, s') => (Ret a, s')
           | (Raise e, s') => handler e s'
           end.

Notation "x <~ m ;; k" := (bind m (fun x => k))
  (at level 100, m at next level, right associativity).
Notation "m ;;; k" := (bind m (fun _ => k))
  (at level 100, right associativity).

(** [for x in l: body x] *)
Fixpoint for_each {S A} (l : list A) (body : A -> stmt S unit) : stmt S unit :=
  match l with
  | [] => ret tt
  | x :: r => body x ;;; for_each r body
  end.

Section Reconciler.
Context {W : Type} (sv : services W).

Definition emit (ev : event) : stmt (run_state W) unit :=
  modify (fun st =>
    {| processed_email_ids := processed_email_ids st;
       existing_thread_ids := existing_thread_ids st;
       new_opportunities_to_notify := new_opportunities_to_notify st;
       updated_opportunities_to_notify := updated_opportunities_to_notify st;
       file := file st;
       worksheet := worksheet st;
       trace := trace st ++ [ev] |}).

(** A call that writes to the spreadsheet: a failed call leaves it as
    it was. *)
Definition sheet_write (op : W -> outcome W) : stmt (run_state W) unit :=
  fun st =>
    match op (worksheet st) with
    | Ret w' =>
        (Ret tt,
         {| processed_email_ids := processed_email_ids st;
            existing_thread_ids := existing_thread_ids st;
            new_opportunities_to_notify := new_opportunities_to_notify st;
            updated_opportunities_to_notify := updated_opportunities_to_notify st;
            file := file st;
            worksheet := w';
            trace := trace st |})
    | Raise e => (Raise e, st)
    end.

(** A call that reads the spreadsheet. *)
Definition sheet_read {A} (op : W -> outcome A) : stmt (run_state W) A :=
  fun st => (op (worksheet st), st).

(** [save_processed_email(msg["id"], processed_email_ids)] *)
Definition save_processed (email_id : string) : stmt (run_state W) unit :=
  emit (EvSave email_id) ;;;
  modify (fun st =>
    let '(s, f) := save_processed_email email_id (processed_email_ids st) in
    {| processed_email_ids := s;
       existing_thread_ids := existing_thread_ids st;
       new_opportunities_to_notify := new_opportunities_to_notify st;
       updated_opportunities_to_notify := updated_opportunities_to_notify st;
       file := f;
       worksheet := worksheet st;
       trace := trace st |}).

Definition add_thread_and_notify (thread_id : string) (extracted_data : dict)
    : stmt (run_state W) unit :=
  modify (fun st =>
    {| processed_email_ids := processed_email_ids st;
       existing_thread_ids := existing_thread_ids st ∪ {[thread_id]};
       new_opportunities_to_notify :=
         new_opportunities_to_notify st ++ [extracted_data];
       updated_opportunities_to_notify := updated_opportunities_to_notify st;
       file := file st;
       worksheet := worksheet st;
       trace := trace st |}).

Definition queue_update (original merged : dict) : stmt (run_state W) unit :=
  modify (fun st =>
    {| processed_email_ids := processed_email_ids st;
       existing_thread_ids := existing_thread_ids st;
       new_opportunities_to_notify := new_opportunities_to_notify st;
       updated_opportunities_to_notify :=
         updated_opportunities_to_notify st ++ [(original, merged)];
       file := file st;
       worksheet := worksheet st;
       trace := trace st |}).

(** The body of the [try] of the update branch.  The result tells
    whether the loop goes on to [save_processed_email] ([true]) or took
    the [continue] of the missing row ([false]). *)
Definition update_existing (email_id : string) (email : email_details)
    : stmt (run_state W) bool :=
  let current_thread_id := d_threadId email in
  cell <~ sheet_read (fun w => find sv w current_thread_id) ;;
  match cell with
  | None => emit (EvRowNotFound email_id) ;;; ret false
  | Some cell_row =>
      column_headers <~ sheet_read (fun w => row_values sv w 3) ;;
      row <~ sheet_read (fun w => row_values sv w cell_row) ;;
      let original := original_data_dict column_headers row in
      updated_data_json <~ lift (update_details_with_ai sv email) ;;
      match updated_data_json with
      | None | Some [] => ret true
      | Some updated =>
          let m := merge column_headers cell_row original updated in
          if has_changed m then
            let values := final_row_values column_headers (merged_data m) in
            emit (EvUpdate cell_row values) ;;;
            sheet_write (fun w => update sv w cell_row values) ;;;
            queue_update original (merged_data m) ;;;
            match cells_to_format m with
            | [] => ret true
            | cells =>
                emit (EvBatchUpdate cells) ;;;
                sheet_write (fun w => batch_update sv w cells) ;;;
                ret true
            end
          else ret true
      end
  end.

(** The branch of a thread that has no row yet. *)
Definition append_new (email : email_details) : stmt (run_state W) unit :=
  let current_thread_id := d_threadId email in
  match extract_initial_details_with_ai sv email (resume_text sv) with
  | None | Some [] => ret tt
  | Some extracted_data =>
      let row_to_append :=
        format_row_from_json sv current_thread_id email extracted_data in
      emit (EvAppendRow row_to_append) ;;;
      sheet_write (fun w => append_row sv w row_to_append) ;;;
      add_thread_and_notify current_thread_id extracted_data
  end.

(** The body of [for msg in messages]. *)
Definition process_message (email_id : string) : stmt (run_state W) unit :=
  st <~ get ;;
  if bool_decide (email_id ∈ processed_email_ids st) then ret tt
  else
    match get_email_metadata sv email_id with
    | None => save_processed email_id
    | Some email_metadata =>
        if negb (existsb (fun domain =>
                   Py.contains domain (m_sender_email email_metadata))
                 TRUSTED_DOMAINS)
        then save_processed email_id
        else
          let email_text_for_search :=
            Py.lower (m_subject email_metadata ++ " " ++ m_body email_metadata) in
          if negb (existsb (fun keyword =>
                     Py.contains keyword email_text_for_search)
                   OPPORTUNITY_KEYWORDS)
          then save_processed email_id
          else
            is_opportunity <~ lift (is_opportunity_ai_check sv email_text_for_search) ;;
            if negb is_opportunity then save_processed email_id
            else
              let attachment_text :=
                match m_attachment_ids email_metadata with
                | [] => ""
                | atts => fetch_and_parse_attachments sv email_id atts
                end in
              let email :=
                {| d_id := m_id email_metadata;
                   d_threadId := m_threadId email_metadata;
                   d_sender_raw := m_sender_raw email_metadata;
                   d_sender_email := m_sender_email email_metadata;
                   d_subject := m_subject email_metadata;
                   d_body := m_body email_metadata;
                   d_attachment_text := attachment_text |} in
              st1 <~ get ;;
              if bool_decide (d_threadId email ∈ existing_thread_ids st1) then
                go_on <~ try_except (update_existing email_id email)
                                    (fun _ => ret true) ;;
                if go_on then save_processed email_id else ret tt
              else
                append_new email ;;;
                save_processed email_id
    end.

(** [get_emails]: only [HttpError] is caught. *)
Definition get_emails : outcome (list string) :=
  match list_messages sv with
  | Raise HttpError => Ret []
  | r => r
  end.

(** The end of [main]: one summary when something was found, sent when
    the notification channel is configured. *)
Definition notify : stmt (run_state W) unit :=
  st <~ get ;;
  match new_opportunities_to_notify st, updated_opportunities_to_notify st with
  | [], [] => ret tt
  | news, updates =>
      if telegram_configured sv then emit (EvSend news updates) else ret tt
  end.

(** [main], from the loading of the two memories on. *)
Definition main_from : stmt (run_state W) unit :=
  st <~ get ;;
  loaded <~ lift (load_processed_emails (now sv) RETENTION_DAYS (file st)) ;;
  modify (fun st =>
    {| processed_email_ids := fst loaded;
       existing_thread_ids := existing_thread_ids st;
       new_opportunities_to_notify := [];
       updated_opportunities_to_notify := [];
       file := snd loaded;
       worksheet := worksheet st;
       trace := trace st |}) ;;;
  column <~ sheet_read (fun w => col_values sv w 1) ;;
  modify (fun st =>
    {| processed_email_ids := processed_email_ids st;
       existing_thread_ids := list_to_set (drop 3 column);
       new_opportunities_to_notify := new_opportunities_to_notify st;
       updated_opportunities_to_notify := updated_opportunities_to_notify st;
       file := file st;
       worksheet := worksheet st;
       trace := trace st |}) ;;;
  messages <~ lift get_emails ;;
  match messages with
  | [] => ret tt
  | _ => for_each messages process_message ;;; notify
  end.

(** A run of the program on a backing file and a spreadsheet. *)
Definition main (f : processed_file) (w : W)
    : outcome unit * run_state W :=
  main_from
    {| processed_email_ids := ∅;
       existing_thread_ids := ∅;
       new_opportunities_to_notify := [];
       updated_opportunities_to_notify := [];
       file := f;
       worksheet := w;
       trace := [] |}.

End Reconciler.

(** ** Stand-ins for the collaborators

    The scenarios below run the program against a spreadsheet held as a
    grid of cells and against a decoder for the JSON they use. *)

Module Double.

Definition grid : Type := list (list string).

(** How a written value shows in a cell. *)
Definition render (v : json) : string :=
  match v with
  | JStr s => s
  | JNum (Py.NInt n) => Py.str_of_int n
  | JBool true => "TRUE"
  | JBool false => "FALSE"
  | _ => ""
  end.

Definition grid_col_values (g : grid) (col : nat) : list string :=
  map (fun r => nth (col - 1) r "") g.

Fixpoint grid_find_from (g : grid) (query : string) (row : nat) : option nat :=
  match g with
  | [] => None
  | r :: rest =>
      if existsb (String.eqb query) r then Some row
      else grid_find_from rest query (S row)
  end.

Definition grid_row_values (g : grid) (row : nat) : list string :=
  nth (row - 1) g [].

Definition grid_update (g : grid) (row : nat) (values : list json) : grid :=
  match nth_error g (row - 1) with
  | Some old =>
      <[(row - 1)%nat := (map render values ++ drop (length values) old)%list]> g
  | None => g
  end.

(** Skips white space. *)
Fixpoint skip_ws (l : list ascii) : list ascii :=
  match l with
  | c :: r => if Py.is_space c then skip_ws r else l
  | [] => []
  end.

(** The double quote. *)
Definition dquote : ascii := ascii_of_nat 34.

(** A string literal without escapes, after its opening quote. *)
Fixpoint string_body (l : list ascii) : option (string * list ascii) :=
  match l with
  | [] => None
  | c :: r =>
      if Ascii.eqb c dquote then Some (EmptyString, r)
      else if Ascii.eqb c "\"%char then None
      else match string_body r with
           | Some (s, rest) => Some (String c s, rest)
           | None => None
           end
  end.

(** A member value: a string or a non-negative integer. *)
Definition member_value (l : list ascii) : option (json * list ascii) :=
  let number :=
    match Py.take_digits l 0 0 with
    | (_, O, _) => None
    | (n, _, rest) => Some (JNum (Py.NInt n), rest)
    end in
  match l with
  | c :: r =>
      if Ascii.eqb c dquote then
        match string_body r with
        | Some (s, rest) => Some (JStr s, rest)
        | None => None
        end
      else number
  | [] => number
  end.

(** The members of an object, after its opening brace. *)
Fixpoint members (fuel : nat) (l : list ascii) (acc : dict) : option dict :=
  match fuel with
  | O => None
  | S fuel' =>
      match skip_ws l with
      | c :: r =>
          if Ascii.eqb c dquote then
            match string_body r with
            | Some (key, r1) =>
                match skip_ws r1 with
                | ":"%char :: r2 =>
                    match member_value (skip_ws r2) with
                    | Some (v, r3) =>
                        let acc' := dict_set key v acc in
                        match skip_ws r3 with
                        | ","%char :: r4 => members fuel' r4 acc'
                        | "}"%char :: r4 =>
                            match skip_ws r4 with
                            | [] => Some acc'
                            | _ => None
                            end
                        | _ => None
                        end
                    | None => None
                    end
                | _ => None
                end
            | None => None
            end
          else None
      | [] => None
      end
  end.

(** The text of a string literal, of a member and of an object. *)
Definition quoted (s : string) : string :=
  String dquote (s +:+ String dquote EmptyString).

Definition member (key value : string) : string :=
  quoted key +:+ ": " +:+ quoted value.

Definition object (l : list string) : string :=
  "{" +:+ String.concat ", " l +:+ "}".

(** A decoder for one JSON object whose members are strings without
    escapes or non-negative integers; on such a text it returns what
    [json.loads] returns, and it rejects every other text. *)
Definition json_loads_flat (s : string) : option dict :=
  match skip_ws (Py.chars s) with
  | "{"%char :: r =>
      match skip_ws r with
      | "}"%char :: r' =>
          match skip_ws r' with
          | [] => Some []
          | _ => None
          end
      | _ => members (S (String.length s)) r []
      end
  | _ => None
  end.

(** The collaborators of a scenario: a mailbox listing, the metadata of
    each message, the answers of the model, the row lookup of the
    spreadsheet and a clock reading.  The spreadsheet calls succeed. *)
Definition scenario (messages : outcome (list string))
    (metadata : string -> option email_metadata)
    (model : prompt -> outcome string)
    (lookup : grid -> string -> outcome (option nat))
    (clock : Z * Z) : services grid :=
  {| json_loads := json_loads_flat;
     list_messages := messages;
     get_email_metadata := metadata;
     fetch_and_parse_attachments := fun _ _ => "";
     generate_content := model;
     col_values := fun g col => Ret (grid_col_values g col);
     find := lookup;
     row_values := fun g row => Ret (grid_row_values g row);
     append_row := fun g values => Ret (g ++ [map render values])%list;
     update := fun g row values => Ret (grid_update g row values);
     batch_update := fun g _ => Ret g;
     now := clock;
     strftime := "2025-07-01 09:00:00";
     resume_text := "B.Tech, data science";
     telegram_configured := true |}.

(** The row lookup of a consistent spreadsheet. *)
Definition grid_find (g : grid) (query : string) : outcome (option nat) :=
  Ret (grid_find_from g query 1).

End Double.

(** ** Notions used in the statements *)


(** The identifiers the backing file holds. *)
Definition file_ids (f : processed_file) : gset string :=
  match f with
  | Some (IdArray ids) => list_to_set ids
  | _ => ∅
  end.

(** The first cell of each row handed to [append_row]: the thread the
    row is keyed by. *)
Definition appended_threads (tr : list event) : list json :=
  flat_map (λ ev, match ev with
                  | EvAppendRow row => [hd JNull row]
                  | _ => []
                  end) tr.

(** No turn of the loop took the [continue] of the missing row. *)
Definition no_row_not_found (tr : list event) : bool :=
  forallb (λ ev, match ev with
                 | EvRowNotFound _ => false
                 | _ => true
                 end) tr.

(** The identifier has an age below the retention window of [main]. *)
Definition within_retention (now : Z * Z) (message_id : string) : bool :=
  match get_email_age_days now message_id with
  | Ret age => Py.num_ltb_Q age RETENTION_DAYS
  | Raise _ => false
  end.

(** The threads appended so far are distinct and known. *)
Definition threads_known {W} (s : run_state W) : Prop :=
  NoDup (appended_threads (trace s))
  ∧ ∀ v, In v (appended_threads (trace s)) →
         ∃ thread_id, v = JStr thread_id ∧ thread_id ∈ existing_thread_ids s.

(** The backing file holds the set in memory, and every message gone
    through is in it unless it met a missing row. *)
Definition recorded {W} (seen : list string) (s : run_state W) : Prop :=
  file_ids (file s) = processed_email_ids s
  ∧ ∀ i, In i seen →
         i ∈ processed_email_ids s ∨ In (EvRowNotFound i) (trace s).

(** The postcondition [Q] holds of the result and final state of [m]
    run from [s]. *)
Definition wp {S A} (m : stmt S A) (Q : outcome A → S → Prop) (s : S) : Prop :=
  Q (fst (m s)) (snd (m s)).

(** ** Scenarios *)

Module Scenario.
Import Double.

Definition headers : list string :=
  ["Thread ID"; "Timestamp"; "Application Deadline"; "Sender";
   "Institution/Company"; "Eligibility"; "Role Title"].

(** A spreadsheet with its headers on the third row and no record. *)
Definition empty_sheet : grid := [["Opportunities"]; [""]; headers].

(** The same with the record of thread [T1] on the fourth row. *)
Definition sheet_with_T1 : grid :=
  (empty_sheet ++
   [["T1"; "2025-06-30 10:00:00"; "2025-08-01"; "HR <hr@iitm.ac.in>";
     "N/A"; "All"; "Intern"]])%list.

(** Every message comes from a trusted sender, carries a keyword and
    belongs to thread [T1]. *)
Definition mailbox (i : string) : option email_metadata :=
  Some {| m_id := i;
          m_threadId := "T1";
          m_sender_raw := "HR <hr@iitm.ac.in>";
          m_sender_email := "hr@iitm.ac.in";
          m_subject := "Research Internship opening";
          m_body := "Apply by August";
          m_attachment_ids := [] |}.

(** A model that sees an opportunity, extracts a role with a score and,
    from a follow-up, a new role. *)
Definition model (p : prompt) : outcome string :=
  match p with
  | OpportunityPrompt _ => Ret "YES"
  | InitialPrompt _ _ _ _ _ =>
      Ret ("Here: " +:+ object [member "Role Title" "Intern";
                                member RELEVANCE_KEY "8/10"])
  | UpdatePrompt _ _ _ => Ret (object [member "Role Title" "Senior Intern"])
  end.

(** The same model with an infinite score. *)
Definition model_inf (p : prompt) : outcome string :=
  match p with
  | InitialPrompt _ _ _ _ _ =>
      Ret (object [member "Role Title" "Intern"; member RELEVANCE_KEY "inf"])
  | _ => model p
  end.

(** A model whose calls fail. *)
Definition model_down (p : prompt) : outcome string := Raise OtherError.

(** 1 July 2025, 09:00 UTC. *)
Definition clock : Z * Z := (1751360400, 0)%Z.

(** An identifier that decodes to one hour before the clock, and the
    next one; and an identifier that decodes to eight days before. *)
Definition fresh_id : string := "0197c4fffc000000".
Definition next_id : string := "0197c4fffc000001".
Definition old_id : string := "01979c040a800000".

Definition fresh_run : services grid :=
  scenario (Ret [fresh_id]) mailbox model grid_find clock.

Definition old_run : services grid :=
  scenario (Ret [old_id]) mailbox model grid_find clock.

Definition two_in_thread : services grid :=
  scenario (Ret [fresh_id; next_id]) mailbox model grid_find clock.

(** The row lookup finds nothing, though the first column lists the
    thread. *)
Definition missing_row : services grid :=
  scenario (Ret [fresh_id]) mailbox model (λ _ _, Ret None) clock.

Definition classifier_down : services grid :=
  scenario (Ret [fresh_id; next_id]) mailbox model_down grid_find clock.

Definition infinite_score : services grid :=
  scenario (Ret [fresh_id]) mailbox model_inf grid_find clock.

(** A model that, from a follow-up, returns a new value for the first
    column. *)
Definition model_rekey (p : prompt) : outcome string :=
  match p with
  | UpdatePrompt _ _ _ => Ret (object [member "Thread ID" "T9"])
  | _ => model p
  end.

(** Two messages of thread [T1] against a consistent spreadsheet. *)
Definition thread_overwritten : services grid :=
  scenario (Ret [fresh_id; next_id]) mailbox model_rekey grid_find clock.

(** The [email_details] of a message of the mailbox. *)
Definition details (i : string) : email_details :=
  {| d_id := i;
     d_threadId := "T1";
     d_sender_raw := "HR <hr@iitm.ac.in>";
     d_sender_email := "hr@iitm.ac.in";
     d_subject := "Research Internship opening";
     d_body := "Apply by August";
     d_attachment_text := "" |}.

End Scenario.

(** ** Further notions used in the statements *)

(** The guard of the merge loop on an item of the response. *)
Definition passes (merged : dict) (item : string * json) : bool :=
  overwrites merged item.1 item.2.

(** The identifiers handed to [save_processed_email], in order. *)
Definition saved_ids (tr : list event) : list string :=
  flat_map (λ ev, match ev with
                  | EvSave email_id => [email_id]
                  | _ => []
                  end) tr.

(** The summaries sent: the two queues each one was built from. *)
Definition notifications (tr : list event)
    : list (list dict * list (dict * dict)) :=
  flat_map (λ ev, match ev with
                  | EvSend news updates => [(news, updates)]
                  | _ => []
                  end) tr.

(** The tests of the loop before the model is asked. *)
Definition from_trusted_domain (email_metadata : email_metadata) : bool :=
  existsb (fun domain => Py.contains domain (m_sender_email email_metadata))
    TRUSTED_DOMAINS.

Definition email_text_for_search (email_metadata : email_metadata) : string :=
  Py.lower (m_subject email_metadata ++ " " ++ m_body email_metadata).

Definition has_keyword (email_metadata : email_metadata) : bool :=
  existsb (fun keyword =>
             Py.contains keyword (email_text_for_search email_metadata))
    OPPORTUNITY_KEYWORDS.

(** ** Notification text *)

(** [escape_chars] of [sanitize_telegram_markdown]. *)
Definition escape_chars : string := "_*[]()~`>#+-=|{}.!".

(** [''.join(['\\' + char if char in escape_chars else char
              for char in text])] on a [str].  A string is its UTF-8
    bytes: the characters of [escape_chars] are ASCII, so no byte of a
    longer character is one of them, and going through the bytes gives
    the bytes of what going through the characters gives. *)
Fixpoint escape_text (text : string) : string :=
  match text with
  | EmptyString => EmptyString
  | String char rest =>
      if Py.has_char char escape_chars
      then String "\" (String char (escape_text rest))
      else String char (escape_text rest)
  end.

(** [s.replace(a, b)] for one-character [a] and [b]. *)
Fixpoint replace_char (a b : ascii) (s : string) : string :=
  match s with
  | EmptyString => EmptyString
  | String c r => String (if Ascii.eqb c a then b else c) (replace_char a b r)
  end.

(** [sep.join(l)] *)
Fixpoint join (sep : string) (l : list string) : string :=
  match l with
  | [] => ""
  | [x] => x
  | x :: r => x ++ sep ++ join sep r
  end.

(** [str.title] on ASCII text: a letter that follows a letter is
    lowered, any other letter is raised. *)
Definition upper_char (c : ascii) : ascii :=
  let n := nat_of_ascii c in
  if ((97 <=? n) && (n <=? 122))%nat then ascii_of_nat (n - 32) else c.

Definition is_cased (c : ascii) : bool :=
  let n := nat_of_ascii c in
  (((65 <=? n) && (n <=? 90)) || ((97 <=? n) && (n <=? 122)))%nat.

Fixpoint title_from (previous_is_cased : bool) (s : string) : string :=
  match s with
  | EmptyString => EmptyString
  | String c r =>
      String (if previous_is_cased then Py.lower_char c else upper_char c)
             (title_from (is_cased c) r)
  end.

Definition ascii_title (s : string) : string := title_from false s.

(** The line feed. *)
Definition nl : string := String (ascii_of_nat 10) "".

Section Notifier.
(** [repr] is Python's [str] on the values that are neither strings,
    [None], booleans nor integers; [str_title] is [str.title]. *)
Context (repr : json -> string) (str_title : string -> string).

(** [str(text)], the text itself when it is a [str]. *)
Definition py_str (text : json) : string :=
  match text with
  | JStr s => s
  | JNull => "None"
  | JBool true => "True"
  | JBool false => "False"
  | JNum (Py.NInt n) => Py.str_of_int n
  | _ => repr text
  end.

(** [sanitize_telegram_markdown] *)
Definition sanitize_telegram_markdown (text : json) : string :=
  escape_text (py_str text).

(** The lines of [changes] in [format_update_for_telegram]. *)
Definition changes (original_data merged_data : dict) : list string :=
  flat_map
    (fun item : string * json =>
       let '(key, new_value) := item in
       if dict_mem key original_data
          && negb (py_eq new_value (dict_get_default key JNull original_data))
       then
         let clean_key :=
           sanitize_telegram_markdown
             (JStr (str_title (replace_char "_" " " key))) in
         let clean_value := sanitize_telegram_markdown new_value in
         ["\- *" ++ clean_key ++ ":* " ++ clean_value]
       else [])
    merged_data.

(** [format_update_for_telegram] *)
Definition format_update_for_telegram (original_data merged_data : dict)
    : option string :=
  let title :=
    sanitize_telegram_markdown
      (dict_get_default "Role Title" (JStr "N/A") merged_data) in
  let company :=
    sanitize_telegram_markdown
      (dict_get_default "Institution/Company" (JStr "N/A") merged_data) in
  match changes original_data merged_data with
  | [] => None
  | lines =>
      let change_summary := join nl lines in
      let update_header :=
        sanitize_telegram_markdown (JStr "The following details were updated:") in
      Some ("*Opportunity: " ++ title ++ "*" ++ nl ++
            "*Company:* " ++ company ++ nl ++ nl ++
            update_header ++ nl ++
            change_summary)
  end.

End Notifier.

(** ** Reading a message *)

(** The message resource of the mailbox, as its API documents it.  A
    field the code reads with [d[key]] or tests with [key in d] is
    optional here: [None] is the absent key. *)
Record header : Type := { h_name : string; h_value : string }.

Record part_body : Type := {
  b_data : option string;
  b_attachmentId : option string
}.

Inductive message_part : Type :=
  | Part (mimeType : option string) (filename : option string)
         (body : option part_body) (parts : option (list message_part)).

Record message : Type := {
  g_id : option string;
  g_threadId : option string;
  g_headers : option (list header);
  g_payload : option message_part
}.

(** [s.split(c)[1]] and what follows it, for a text that holds [c]: the
    text after the first [c]. *)
Fixpoint after (c : ascii) (s : string) : string :=
  match s with
  | EmptyString => EmptyString
  | String a r => if Ascii.eqb a c then r else after c r
  end.

(** [s.endswith(suffix)] *)
Fixpoint endswith (suffix s : string) : bool :=
  if String.eqb s suffix then true
  else match s with
       | EmptyString => false
       | String _ r => endswith suffix r
       end.

Module Mailbox.

(** [part["parts"]] when the key is there, nothing otherwise. *)
Definition children (part : message_part) : list message_part :=
  match part with
  | Part _ _ _ (Some l) => l
  | Part _ _ _ None => []
  end.

(** The data of a [text/plain] part when it is not empty. *)
Definition plain_data (part : message_part) : option string :=
  match part with
  | Part (Some "text/plain") _ (Some b) _ =>
      match b_data b with
      | Some "" | None => None
      | Some encoded_body => Some encoded_body
      end
  | _ => None
  end.

(** The entry of [attachment_list] a part gives: it has a file name
    that is not empty and a body with an attachment identifier. *)
Definition part_attachment (part : message_part) : option attachment :=
  match part with
  | Part _ (Some filename) (Some b) _ =>
      if String.eqb filename "" then None
      else match b_attachmentId b with
           | Some a => Some {| att_id := a; att_filename := Py.lower filename |}
           | None => None
           end
  | _ => None
  end.

(** The number of parts of a part, itself included. *)
Fixpoint part_count (part : message_part) : nat :=
  match part with
  | Part _ _ _ sub =>
      S (match sub with
         | Some l =>
             (fix go (l : list message_part) : nat :=
                match l with
                | [] => 0
                | q :: r => part_count q + go r
                end) l
         | None => 0
         end)
  end.

(** [next(h["value"] for h in headers if h["name"].lower() == name)] *)
Fixpoint header_value (name : string) (headers : list header) : option string :=
  match headers with
  | [] => None
  | h :: r =>
      if String.eqb (Py.lower (h_name h)) name then Some (h_value h)
      else header_value name r
  end.

(** The address the sender field gives, lowered. *)
Definition sender_email_of (sender_raw : string) : string :=
  let sender_email :=
    if Py.has_char "<" sender_raw && Py.has_char ">" sender_raw
    then Py.before ">" (Py.before "<" (after "<" sender_raw))
    else sender_raw in
  Py.lower sender_email.

Section Metadata.
(** The call that fetches a message, and
    [base64.urlsafe_b64decode(data).decode("utf-8")], [None] when
    either step raises. *)
Context (messages_get : string -> outcome message)
        (b64_utf8 : string -> option string).

(** [while parts:], one turn for each unit of [fuel]; [None] is an
    exception raised by the decoding.  The queue holds at most as many
    turns as it has parts, nested ones included, and
    [get_email_metadata] gives that many. *)
Fixpoint walk (fuel : nat) (parts : list message_part) (body_text : string)
    (attachment_list : list attachment) : option (string * list attachment) :=
  match parts, fuel with
  | [], _ => Some (body_text, attachment_list)
  | _ :: _, O => Some (body_text, attachment_list)
  | part :: rest, S fuel' =>
      let parts' := (rest ++ children part)%list in
      let attachment_list' :=
        match part_attachment part with
        | Some att => (attachment_list ++ [att])%list
        | None => attachment_list
        end in
      match plain_data part with
      | None => walk fuel' parts' body_text attachment_list'
      | Some encoded_body =>
          match b64_utf8 encoded_body with
          | Some decoded =>
              walk fuel' parts' (body_text ++ decoded) attachment_list'
          | None => None
          end
      end
  end.

(** [get_email_metadata]: every exception ends in [None]. *)
Definition get_email_metadata (msg_id : string) : option email_metadata :=
  match messages_get msg_id with
  | Raise _ => None
  | Ret message =>
      payload ← g_payload message;
      headers ← g_headers message;
      sender_raw ← header_value "from" headers;
      '(body_text, attachment_list) ← walk (part_count payload) [payload] "" [];
      id ← g_id message;
      threadId ← g_threadId message;
      subject ← header_value "subject" headers;
      Some {| m_id := id;
              m_threadId := threadId;
              m_sender_raw := sender_raw;
              m_sender_email := sender_email_of sender_raw;
              m_subject := subject;
              m_body := Py.strip body_text;
              m_attachment_ids := attachment_list |}
  end.

End Metadata.

Section Attachments.
(** What reading an attachment of a message gives.  For a PDF: the
    pages, each with the result of its text extraction ([None] where it
    gives nothing).  For a document: its paragraphs.  [Raise] is an
    exception of the fetch, of the decoding or of the opening of the
    file. *)
Context (read_pdf : string -> string -> outcome (list (outcome (option string))))
        (read_docx : string -> string -> outcome (list string)).

(** [for page in reader.pages:
       full_attachment_text += page.extract_text() or ""],
    left at the first page whose extraction raises. *)
Fixpoint pages_text (pages : list (outcome (option string)))
    (full_attachment_text : string) : string :=
  match pages with
  | [] => full_attachment_text
  | Ret (Some page_text) :: rest =>
      pages_text rest (full_attachment_text ++ page_text)
  | Ret None :: rest => pages_text rest full_attachment_text
  | Raise _ :: _ => full_attachment_text
  end.

(** [for para in doc.paragraphs:
       full_attachment_text += para.text + "\n"] *)
Fixpoint paragraphs_text (paragraphs : list string)
    (full_attachment_text : string) : string :=
  match paragraphs with
  | [] => full_attachment_text
  | para :: rest =>
      paragraphs_text rest (full_attachment_text ++ para ++ nl)
  end.

(** One turn of [for att_info in attachment_list]. *)
Definition attachment_text (msg_id : string) (full_attachment_text : string)
    (att_info : attachment) : string :=
  let filename := att_filename att_info in
  if negb (endswith ".pdf" filename || endswith ".docx" filename)
  then full_attachment_text
  else if endswith ".pdf" filename then
    match read_pdf msg_id (att_id att_info) with
    | Ret pages => pages_text pages full_attachment_text
    | Raise _ => full_attachment_text
    end
  else if endswith ".docx" filename then
    match read_docx msg_id (att_id att_info) with
    | Ret paragraphs => paragraphs_text paragraphs full_attachment_text
    | Raise _ => full_attachment_text
    end
  else full_attachment_text.

(** [fetch_and_parse_attachments] *)
Definition fetch_and_parse_attachments (msg_id : string)
    (attachment_list : list attachment) : string :=
  Py.strip (fold_left (attachment_text msg_id) attachment_list "").

End Attachments.
End Mailbox.

(** A message with a text, a nested text and two attachments, one of
    them nested. *)
Module Sample.

Definition text_part (data : string) : message_part :=
  Part (Some "text/plain") (Some "")
       (Some {| b_data := Some data; b_attachmentId := None |}) None.

Definition file_part (filename attachment_id : string) : message_part :=
  Part (Some "application/octet-stream") (Some filename)
       (Some {| b_data := None; b_attachmentId := Some attachment_id |}) None.

Definition payload : message_part :=
  Part (Some "multipart/mixed") (Some "") None
       (Some [ Part (Some "multipart/alternative") None None
                    (Some [text_part "Apply "; file_part "Offer.DOCX" "A2"]);
               file_part "CV.pdf" "A1";
               text_part "by August " ]).

Definition headers : list header :=
  [ {| h_name := "Subject"; h_value := "Research Internship opening" |};
    {| h_name := "FROM"; h_value := "HR Cell <HR@iitm.ac.in>" |} ].

Definition sample : message :=
  {| g_id := Some "0197c4fffc000000"; g_threadId := Some "T1";
     g_headers := Some headers; g_payload := Some payload |}.

(** A decoding that gives the data back. *)
Definition plain (data : string) : option string := Some data.

End Sample.

(** The parts of a part, itself first. *)
Fixpoint all_parts (part : message_part) : list message_part :=
  part ::
  match part with
  | Part _ _ _ (Some l) =>
      (fix go (l : list message_part) : list message_part :=
         match l with
         | [] => []
         | q :: r => (all_parts q ++ go r)%list
         end) l
  | Part _ _ _ None => []
  end.

(** * Properties *)

(** ** Text lemmas *)

Section Text.

Lemma append_nil t : "" +:+ t = t.
Proof. reflexivity. Qed.

Lemma append_cons a s t : String a s +:+ t = String a (s +:+ t).
Proof. reflexivity. Qed.





Lemma find_from_lower c s i :
  Py.find_from c s i = (-1)%Z ∨ (i <= Py.find_from c s i)%Z.
Proof.
  revert i. induction s as [|a s IH]; intros i; simpl; [by left|].
  destruct (Ascii.eqb a c); [right; lia|].
  destruct (IH (i + 1)%Z) as [->|?]; [by left|right; lia].
Qed.










Lemma append_assoc s t u : (s +:+ t) +:+ u = s +:+ t +:+ u.
Proof.
  induction s as [|a s IH]; [done|].
  rewrite !append_cons. by rewrite IH.
Qed.


End Text.

Section ExtractorFacts.
Context {W : Type} (sv : services W).


End ExtractorFacts.

(** ** Retention store *)







Lemma recent_ids_total now retention_days processed_ids :
  Forall (λ i, ∃ a, get_email_age_days now i = Ret a) processed_ids →
  ∃ recent, recent_ids now retention_days processed_ids = Ret recent.
Proof.
  induction 1 as [|i l [a Ha] _ [s Hs]]; simpl; [eauto|].
  rewrite Ha, Hs. simpl. eauto.
Qed.

Lemma recent_ids_spec now retention_days processed_ids recent :
  recent_ids now retention_days processed_ids = Ret recent →
  ∀ i, i ∈ recent ↔
       i ∈ processed_ids ∧
       ∃ a, get_email_age_days now i = Ret a
            ∧ Py.num_ltb_Q a retention_days = true.
Proof.
  revert recent. induction processed_ids as [|j l IH]; simpl; intros recent.
  - intros [= <-] i. split; [set_solver|]. intros [H _]. by apply elem_of_nil in H.
  - destruct (get_email_age_days now j) as [a|] eqn:Ha; [|done]. simpl.
    destruct (recent_ids now retention_days l) as [s|]; [|done]. simpl.
    intros [= <-] i. specialize (IH s eq_refl i).
    rewrite elem_of_cons.
    destruct (Py.num_ltb_Q a retention_days) eqn:Hlt.
    + rewrite elem_of_union, elem_of_singleton, IH. split.
      * intros [->|[? ?]]; eauto.
      * intros [[->|?] ?]; eauto.
    + rewrite IH. split.
      * intros [? ?]; eauto.
      * intros [[->|?] (b & Hb & Hl)]; [|eauto]. congruence.
Qed.

(** After a load the backing file holds exactly the identifiers
    returned. *)
Lemma load_file_ids now retention_days f recent f' :
  load_processed_emails now retention_days f = Ret (recent, f') →
  file_ids f' = recent.
Proof.
  unfold load_processed_emails.
  destruct f as [[|ids]|]; simpl; try (by intros [= <- <-]).
  destruct (recent_ids now retention_days ids) as [s|] eqn:Hs; [|done]. simpl.
  case_bool_decide as Hsize; intros [= <- <-]; simpl.
  - apply set_eq. intros i. by rewrite elem_of_list_to_set, elem_of_elements.
  - assert (Hsub : s ⊆ list_to_set ids).
    { intros i Hi. apply elem_of_list_to_set.
      by apply (recent_ids_spec _ _ _ _ Hs). }
    symmetry. apply set_subseteq_size_eq; [done|].
    rewrite Hsize. clear. induction ids as [|i l IH]; simpl; [done|].
    destruct (decide (i ∈ (list_to_set l : gset string))).
    + rewrite subseteq_union_1_L by set_solver. lia.
    + rewrite size_union by set_solver. rewrite size_singleton. lia.
Qed.


(** ** Identifiers of ordinary length have an age *)















(** An identifier too large for a float makes the load fail. *)
Lemma load_overflow now retention_days i l :
  get_email_age_days now i = Raise OverflowError →
  load_processed_emails now retention_days (Some (IdArray (i :: l)))
    = Raise OverflowError.
Proof. intros H. unfold load_processed_emails. simpl. by rewrite H. Qed.

(** ** Dictionaries *)

Lemma dict_mem_get key d : dict_mem key d = true ↔ is_Some (dict_get key d).
Proof.
  induction d as [|[k v] d IH]; simpl.
  - split; [done|]. by intros [? ?].
  - destruct (String.eqb k key); [|done]. split; eauto.
Qed.

Lemma dict_get_set_eq key v d : dict_get key (dict_set key v d) = Some v.
Proof.
  induction d as [|[k w] d IH]; simpl.
  - by rewrite String.eqb_refl.
  - destruct (String.eqb k key) eqn:E; simpl; by rewrite E.
Qed.

Lemma dict_get_set_ne key key' v d :
  key ≠ key' → dict_get key' (dict_set key v d) = dict_get key' d.
Proof.
  intros Hne. induction d as [|[k w] d IH]; simpl.
  - destruct (String.eqb_spec key key'); done.
  - destruct (String.eqb_spec k key) as [->|Hk]; simpl.
    + destruct (String.eqb_spec key key'); done.
    + by rewrite IH.
Qed.

Lemma dict_get_in key v d : dict_get key d = Some v → In (key, v) d.
Proof.
  induction d as [|[k w] d IH]; simpl; [done|].
  destruct (String.eqb_spec k key) as [->|Hk].
  - intros [= ->]. by left.
  - intros H. right. by apply IH.
Qed.

Lemma dict_get_none key d : dict_get key d = None ↔ ¬ In key (dict_keys d).
Proof.
  induction d as [|[k w] d IH]; simpl; [tauto|].
  destruct (String.eqb_spec k key) as [->|Hk]; [|rewrite IH]; split;
    try done; tauto.
Qed.

(** ** Equality with a string *)

Lemma py_eq_str_l s v : py_eq (JStr s) v = true ↔ v = JStr s.
Proof.
  destruct v; simpl; try (split; discriminate).
  rewrite String.eqb_eq. split; congruence.
Qed.

Lemma py_eq_str_r s v : py_eq v (JStr s) = true ↔ v = JStr s.
Proof.
  destruct v; simpl; try (split; discriminate).
  rewrite String.eqb_eq. split; congruence.
Qed.

(** ** The stored values *)

Lemma original_data_dict_from_get hs rs acc key x :
  (∀ k y, dict_get k acc = Some y → ∃ s, y = JStr s) →
  dict_get key (original_data_dict_from hs rs acc) = Some x → ∃ s, x = JStr s.
Proof.
  revert rs acc. induction hs as [|h hs IH]; intros rs acc Hacc; simpl.
  - apply Hacc.
  - apply IH. intros k y.
    destruct (decide (h = k)) as [->|Hne].
    + rewrite dict_get_set_eq. intros [= <-]. eauto.
    + rewrite dict_get_set_ne by done. apply Hacc.
Qed.

Lemma original_data_dict_from_mem hs rs acc key :
  is_Some (dict_get key (original_data_dict_from hs rs acc))
  ↔ In key hs ∨ is_Some (dict_get key acc).
Proof.
  revert rs acc. induction hs as [|h hs IH]; intros rs acc; simpl.
  - tauto.
  - rewrite IH. destruct (decide (h = key)) as [->|Hne].
    + rewrite dict_get_set_eq. split; eauto.
    + rewrite dict_get_set_ne by done. tauto.
Qed.

(** The stored values are strings. *)
Lemma original_data_dict_str column_headers row_values key x :
  dict_get key (original_data_dict column_headers row_values) = Some x →
  ∃ s, x = JStr s.
Proof. apply original_data_dict_from_get. discriminate. Qed.

(** The keys of the stored values are the column headers. *)
Lemma original_data_dict_keys column_headers row_values key :
  is_Some (dict_get key (original_data_dict column_headers row_values))
  ↔ In key column_headers.
Proof.
  unfold original_data_dict. rewrite original_data_dict_from_mem. simpl.
  split; [|tauto]. intros [?|[? ?]]; done.
Qed.

(** ** The merge loop *)

Lemma overwrites_get merged key new_value :
  overwrites merged key new_value =
  match dict_get key merged with
  | Some stored => negb (py_eq new_value (JStr "N/A"))
                   && negb (py_eq stored new_value)
  | None => false
  end.
Proof.
  unfold overwrites, dict_get_default.
  destruct (dict_get key merged) as [stored|] eqn:E.
  - assert (dict_mem key merged = true) as -> by (apply dict_mem_get; eauto).
    done.
  - assert (dict_mem key merged = false) as ->; [|done].
    destruct (dict_mem key merged) eqn:Hm; [|done].
    apply dict_mem_get in Hm as [? ?]. congruence.
Qed.

Lemma merge_step_other column_headers row st k v key :
  k ≠ key →
  dict_get key (merged_data (merge_step column_headers row st (k, v)))
  = dict_get key (merged_data st).
Proof.
  intros Hne. unfold merge_step. destruct (overwrites _ _ _); simpl; [|done].
  by apply dict_get_set_ne.
Qed.

Lemma merge_fold_other column_headers row items st key :
  ¬ In key (dict_keys items) →
  dict_get key (merged_data (fold_left (merge_step column_headers row) items st))
  = dict_get key (merged_data st).
Proof.
  revert st. induction items as [|[k v] items IH]; intros st Hn; [done|].
  cbn [fold_left]. simpl in Hn. rewrite IH by tauto.
  apply merge_step_other. tauto.
Qed.

(** What the loop leaves under a key of the response. *)
Lemma merge_fold_key column_headers row items st key new_value :
  NoDup (dict_keys items) → In (key, new_value) items →
  dict_get key (merged_data (fold_left (merge_step column_headers row) items st))
  = if overwrites (merged_data st) key new_value then Some new_value
    else dict_get key (merged_data st).
Proof.
  revert st. induction items as [|[k v] items IH]; intros st Hnd Hin; [done|].
  simpl in Hnd. apply NoDup_cons in Hnd as [Hk Hnd]. cbn [fold_left].
  destruct (decide (k = key)) as [->|Hne].
  - assert (v = new_value) as ->.
    { destruct Hin as [[= ->]|Hin]; [done|]. exfalso. apply Hk.
      apply list_elem_of_In. change key with (fst (key, new_value)).
      by apply in_map. }
    rewrite merge_fold_other
      by (intros H; apply Hk; by apply list_elem_of_In).
    unfold merge_step. destruct (overwrites _ _ _); simpl; [|done].
    apply dict_get_set_eq.
  - destruct Hin as [[= -> ->]|Hin]; [done|].
    rewrite IH by done.
    rewrite !overwrites_get, merge_step_other by done. done.
Qed.

(** C3, as the program has it.  For a key of the response to delta
    extraction: if the key is a column header, its stored value is kept
    when the returned value is ["N/A"] or equal to it, and becomes the
    returned value otherwise; if the key is not a column header, it is
    ignored and no value is stored under it. *)
Theorem merge_law (column_headers row_values : list string) (row : nat)
    (updated_data_json : dict) (key : string) (new_value : json) :
  NoDup (dict_keys updated_data_json) →
  In (key, new_value) updated_data_json →
  let original := original_data_dict column_headers row_values in
  let merged := merged_data (merge column_headers row original updated_data_json) in
  (In key column_headers →
     ∃ stored, dict_get key original = Some (JStr stored)
       ∧ (py_eq new_value (JStr "N/A") = true
          ∨ py_eq (JStr stored) new_value = true →
          dict_get key merged = Some (JStr stored))
       ∧ (py_eq new_value (JStr "N/A") = false →
          py_eq (JStr stored) new_value = false →
          dict_get key merged = Some new_value))
  ∧ (¬ In key column_headers →
     dict_get key original = None ∧ dict_get key merged = None).
Proof.
  intros Hnd Hin original merged.
  assert (Hm : dict_get key merged =
               if overwrites original key new_value then Some new_value
               else dict_get key original).
  { unfold merged, merge. by rewrite (merge_fold_key _ _ _ _ key new_value). }
  rewrite overwrites_get in Hm. split.
  - intros Hh. apply (original_data_dict_keys _ row_values) in Hh as [x Hx].
    destruct (original_data_dict_str _ _ _ _ Hx) as [stored ->].
    exists stored. fold original in Hx. rewrite Hx in Hm.
    split; [done|]. split.
    + intros [H|H]; rewrite H in Hm; simpl in Hm; [done|].
      by rewrite andb_false_r in Hm.
    + intros H1 H2. by rewrite H1, H2 in Hm.
  - intros Hh.
    assert (dict_get key original = None) as Hx.
    { destruct (dict_get key original) eqn:E; [|done]. exfalso. apply Hh.
      apply (original_data_dict_keys _ row_values). eauto. }
    by rewrite Hx in Hm.
Qed.

(** C4, as the program has it.  A key of the response is overwritten
    only if it is a column header, the returned value is not ["N/A"]
    and it differs from the stored value; the returned value is not
    tested for emptiness, so a returned empty string replaces a stored
    value that is not empty. *)
Theorem overwrite_guard (column_headers row_values : list string) (row : nat)
    (updated_data_json : dict) (key : string) (new_value : json) :
  NoDup (dict_keys updated_data_json) →
  In (key, new_value) updated_data_json →
  let original := original_data_dict column_headers row_values in
  let merged := merged_data (merge column_headers row original updated_data_json) in
  (dict_get key merged ≠ dict_get key original →
     In key column_headers
     ∧ py_eq new_value (JStr "N/A") = false
     ∧ (∀ stored, dict_get key original = Some stored →
          py_eq stored new_value = false)
     ∧ dict_get key merged = Some new_value)
  ∧ (new_value = JStr "" →
     ∀ stored, dict_get key original = Some (JStr stored) → stored ≠ "" →
       dict_get key merged = Some (JStr "")).
Proof.
  intros Hnd Hin original merged.
  assert (Hm : dict_get key merged =
               if overwrites original key new_value then Some new_value
               else dict_get key original).
  { unfold merged, merge. by rewrite (merge_fold_key _ _ _ _ key new_value). }
  rewrite overwrites_get in Hm. split.
  - intros Hch. destruct (dict_get key original) as [stored|] eqn:Hx;
      [|congruence].
    destruct (py_eq new_value (JStr "N/A")); simpl in Hm; [congruence|].
    destruct (py_eq stored new_value) eqn:Hs; simpl in Hm; [congruence|].
    split; [|split; [done|split; [|done]]].
    + apply (original_data_dict_keys _ row_values). fold original. eauto.
    + by intros ? [= <-].
  - intros -> stored Hx Hne. rewrite Hx in Hm. simpl in Hm.
    destruct (String.eqb_spec stored ""); done.
Qed.

(** ** The relevance score *)

Lemma relevance_score_range score n :
  relevance_score score = Ret n → (1 <= n <= 10)%Z.
Proof.
  unfold relevance_score.
  match goal with |- obind ?x _ = _ → _ => destruct x end; simpl; [|done].
  intros [= <-]. lia.
Qed.

(** A validation that ends normally stores the text of an integer
    between 1 and 10. *)
Lemma validate_relevance_range extracted_data validated score :
  dict_get RELEVANCE_KEY extracted_data = Some score →
  validate_relevance extracted_data = Ret validated →
  ∃ n, (1 <= n <= 10)%Z
       ∧ dict_get RELEVANCE_KEY validated = Some (JStr (Py.str_of_int n)).
Proof.
  intros Hs. unfold validate_relevance. rewrite Hs.
  destruct (relevance_score score) as [n|e] eqn:E.
  - intros [= <-]. exists n. split; [by eapply relevance_score_range|].
    apply dict_get_set_eq.
  - destruct e; try done; intros [= <-]; exists 3%Z;
      (split; [lia|apply dict_get_set_eq]).
Qed.

(** The three scores of the specification. *)
Lemma relevance_examples :
  validate_relevance [(RELEVANCE_KEY, JStr "8/10")]
    = Ret [(RELEVANCE_KEY, JStr "8")]
  ∧ validate_relevance [(RELEVANCE_KEY, JStr "11")]
    = Ret [(RELEVANCE_KEY, JStr "10")]
  ∧ validate_relevance [(RELEVANCE_KEY, JStr "abc")]
    = Ret [(RELEVANCE_KEY, JStr "3")].
Proof. by vm_compute. Qed.

(** An infinite score leaves the validation with [OverflowError]. *)
Lemma validate_relevance_inf :
  validate_relevance [(RELEVANCE_KEY, JStr "inf")] = Raise OverflowError.
Proof. by vm_compute. Qed.

(** ** Rules for statements *)

Section Rules.
Context {S : Type}.

Lemma wp_bind {A B} (m : stmt S A) (k : A → stmt S B) Q s :
  wp m (λ r s1, match r with
                | Ret a => wp (k a) Q s1
                | Raise e => Q (Raise e) s1
                end) s →
  wp (bind m k) Q s.
Proof. unfold wp, bind. by destruct (m s) as [[a|e] s1]. Qed.

Lemma wp_try_except {A} (m : stmt S A) (h : exn → stmt S A) Q s :
  wp m (λ r s1, match r with
                | Ret a => Q (Ret a) s1
                | Raise e => wp (h e) Q s1
                end) s →
  wp (try_except m h) Q s.
Proof. unfold wp, try_except. by destruct (m s) as [[a|e] s1]. Qed.

Lemma wp_mono {A} (m : stmt S A) (Q Q' : outcome A → S → Prop) s :
  wp m Q s → (∀ r s', Q r s' → Q' r s') → wp m Q' s.
Proof. unfold wp. eauto. Qed.

Lemma wp_ret {A} (a : A) (Q : outcome A → S → Prop) s :
  Q (Ret a) s → wp (ret a) Q s.
Proof. done. Qed.

Lemma wp_lift {A} (x : outcome A) (Q : outcome A → S → Prop) s :
  Q x s → wp (lift x) Q s.
Proof. done. Qed.

Lemma wp_get (Q : outcome S → S → Prop) s : Q (Ret s) s → wp get Q s.
Proof. done. Qed.

Lemma wp_modify (f : S → S) (Q : outcome unit → S → Prop) s :
  Q (Ret tt) (f s) → wp (modify f) Q s.
Proof. done. Qed.

(** A loop whose body keeps [I] when it ends normally and establishes
    [E] when it raises. *)
Lemma wp_for_each {A} (I E : S → Prop) (body : A → stmt S unit) l s :
  (∀ x s, I s → wp (body x) (λ r s', match r with
                                     | Ret _ => I s'
                                     | Raise _ => E s'
                                     end) s) →
  I s →
  wp (for_each l body) (λ r s', match r with
                                | Ret _ => I s'
                                | Raise _ => E s'
                                end) s.
Proof.
  intros Hbody. revert s. induction l as [|x l IH]; intros s HI; [done|].
  simpl. apply wp_bind. eapply wp_mono; [by apply Hbody|].
  intros [[]|e] s'; [apply IH|done].
Qed.

(** The same with an invariant that follows the elements gone
    through. *)
Lemma wp_for_each_seen {A} (I : list A → S → Prop) (body : A → stmt S unit)
    l seen s :
  (∀ x seen s, I seen s →
     wp (body x) (λ r s', r = Ret tt → I (seen ++ [x])%list s') s) →
  I seen s →
  wp (for_each l body) (λ r s', r = Ret tt → I (seen ++ l)%list s') s.
Proof.
  intros Hbody. revert seen s. induction l as [|x l IH]; intros seen s HI.
  - simpl. rewrite app_nil_r. by intros _.
  - simpl. apply wp_bind. eapply wp_mono; [by apply Hbody|].
    intros [[]|e] s' H; [|done]. specialize (IH _ _ (H eq_refl)).
    by rewrite <- app_assoc in IH.
Qed.

End Rules.

Lemma appended_threads_app tr1 tr2 :
  appended_threads (tr1 ++ tr2) = (appended_threads tr1 ++ appended_threads tr2)%list.
Proof. apply flat_map_app. Qed.

(** ** The reconciler, statement by statement *)

Lemma wp_emit {W} ev (Q : outcome unit → run_state W → Prop) s :
  Q (Ret tt) (snd (emit ev s)) → wp (emit ev) Q s.
Proof. done. Qed.

Lemma wp_sheet_read {W A} (op : W → outcome A)
    (Q : outcome A → run_state W → Prop) s :
  Q (op (worksheet s)) s → wp (sheet_read op) Q s.
Proof. done. Qed.

Lemma wp_sheet_write {W} (op : W → outcome W)
    (Q : outcome unit → run_state W → Prop) s :
  match op (worksheet s) with
  | Ret w' => Q (Ret tt) (snd (sheet_write (λ _, Ret w') s))
  | Raise e => Q (Raise e) s
  end →
  wp (sheet_write op) Q s.
Proof. unfold wp, sheet_write. by destruct (op (worksheet s)). Qed.

Ltac solve_trace :=
  first [ symmetry; apply app_nil_r | rewrite <- ?app_assoc; reflexivity ].

Ltac wp_step :=
  cbn beta iota zeta delta [fst snd];
  lazymatch goal with
  | |- wp (bind _ _) _ _ => apply wp_bind
  | |- wp (ret _) _ _ => apply wp_ret
  | |- wp get _ _ => apply wp_get
  | |- wp (modify _) _ _ => apply wp_modify
  | |- wp (lift ?x) _ _ => apply wp_lift; destruct x eqn:?
  | |- wp (emit _) _ _ => apply wp_emit
  | |- wp (sheet_read ?op) _ ?s =>
      apply wp_sheet_read; lazy beta; destruct (op (worksheet s)) eqn:?
  | |- wp (sheet_write ?op) _ ?s =>
      apply wp_sheet_write; lazy beta;
      lazymatch goal with
      | |- match ?x with _ => _ end => destruct x eqn:?
      end
  | |- wp (try_except _ _) _ _ => apply wp_try_except
  | |- wp (queue_update _ _) _ _ => unfold queue_update
  | |- wp (add_thread_and_notify _ _) _ _ => unfold add_thread_and_notify
  | |- wp (match ?x with _ => _ end) _ _ => destruct x eqn:?
  | |- wp (if ?x then _ else _) _ _ => destruct x eqn:?
  | |- match ?x with _ => _ end => destruct x eqn:?
  end.

Section ReconcilerFacts.
Context {W : Type} (sv : services W).

(** The update branch records nothing, appends nothing and knows no new
    thread; when it takes the [continue] it leaves the mark of the
    missing row. *)
Lemma update_existing_spec email_id email s :
  wp (update_existing sv email_id email) (λ r s',
    processed_email_ids s' = processed_email_ids s
    ∧ existing_thread_ids s' = existing_thread_ids s
    ∧ new_opportunities_to_notify s' = new_opportunities_to_notify s
    ∧ file s' = file s
    ∧ ∃ tr, trace s' = (trace s ++ tr)%list
        ∧ appended_threads tr = []
        ∧ (∀ i, ¬ In (EvSave i) tr)
        ∧ (r = Ret false → In (EvRowNotFound email_id) tr)) s.
Proof.
  unfold update_existing.
  repeat wp_step; simpl; repeat (split; [done|]);
    eexists; (split; [solve_trace|]);
    simpl; (split; [done|]); (split; [intros; intuition discriminate|]);
    intros; first [discriminate | tauto].
Qed.

(** The branch of a new thread records nothing; it hands at most one
    row to [append_row], keyed by the thread of the message, and the
    thread is known afterwards unless the call failed. *)
Lemma append_new_spec email s :
  wp (append_new sv email) (λ r s',
    processed_email_ids s' = processed_email_ids s
    ∧ file s' = file s
    ∧ ∃ tr, trace s' = (trace s ++ tr)%list
        ∧ (∀ i, ¬ In (EvSave i) tr)
        ∧ (∀ i, ¬ In (EvRowNotFound i) tr)
        ∧ (appended_threads tr = []
           ∧ existing_thread_ids s' = existing_thread_ids s
           ∨ appended_threads tr = [JStr (d_threadId email)]
             ∧ match r with
               | Ret _ => existing_thread_ids s'
                          = existing_thread_ids s ∪ {[d_threadId email]}
               | Raise _ => existing_thread_ids s' = existing_thread_ids s
               end)) s.
Proof.
  unfold append_new.
  repeat wp_step; simpl; repeat (split; [done|]);
    eexists; (split; [solve_trace|]);
    simpl; (split; [intros; intuition discriminate|]);
    (split; [intros; intuition discriminate|]);
    first [by left | by right].
Qed.

(** A message already recorded is passed over: nothing happens. *)
Lemma process_message_skip email_id s :
  email_id ∈ processed_email_ids s →
  process_message sv email_id s = (Ret tt, s).
Proof.
  intros H. unfold process_message, bind, get. simpl.
  by rewrite bool_decide_eq_true_2.
Qed.

Ltac wp_sub :=
  cbn beta iota zeta delta [fst snd];
  lazymatch goal with
  | |- wp (save_processed _) _ _ => unfold save_processed
  | |- wp (update_existing _ _ _) _ _ =>
      eapply wp_mono; [apply update_existing_spec|];
      intros ? ? (Hproc & Hexist & _ & Hfile & tr & Htrace & Happ & _ & Hmark)
  | |- wp (append_new _ _) _ _ =>
      eapply wp_mono; [apply append_new_spec|];
      intros ? ? (Hproc & Hfile & tr & Htrace & _ & _ & Happ)
  | _ => wp_step
  end.

Lemma elem_of_add (X : gset string) i : i ∈ X ∪ {[i]}.
Proof. apply elem_of_union_r. by apply elem_of_singleton. Qed.

(** What one turn of the loop does. *)
Lemma process_message_spec email_id s :
  wp (process_message sv email_id) (λ r s',
    (processed_email_ids s' = processed_email_ids s ∧ file s' = file s
     ∨ processed_email_ids s' = processed_email_ids s ∪ {[email_id]}
       ∧ file s' = Some (IdArray (elements (processed_email_ids s'))))
    ∧ ∃ tr, trace s' = (trace s ++ tr)%list
        ∧ (appended_threads tr = []
           ∧ existing_thread_ids s' = existing_thread_ids s
           ∨ ∃ thread_id,
               appended_threads tr = [JStr thread_id]
               ∧ (thread_id ∉ existing_thread_ids s)
               ∧ match r with
                 | Ret _ => existing_thread_ids s'
                            = existing_thread_ids s ∪ {[thread_id]}
                 | Raise _ => existing_thread_ids s' = existing_thread_ids s
                 end)
        ∧ (r = Ret tt →
           email_id ∈ processed_email_ids s'
           ∨ In (EvRowNotFound email_id) tr)) s.
Proof.
  unfold process_message.
  repeat wp_sub; simpl in *;
    repeat match goal with
           | H : bool_decide _ = true |- _ => apply bool_decide_eq_true in H
           | H : bool_decide _ = false |- _ => apply bool_decide_eq_false in H
           end.
  - (* already recorded *)
    split; [by left|]. exists []. rewrite app_nil_r.
    split; [done|]. split; [by left|]. intros _. by left.
  - split; [by right|]. exists [EvSave email_id].
    split; [done|]. split; [by left|]. intros _. left. apply elem_of_add.
  - split; [by right|]. exists [EvSave email_id].
    split; [done|]. split; [by left|]. intros _. left. apply elem_of_add.
  - split; [by right|]. exists [EvSave email_id].
    split; [done|]. split; [by left|]. intros _. left. apply elem_of_add.
  - (* the update branch went on to the recording *)
    rewrite Hproc. split; [by right|].
    exists (tr ++ [EvSave email_id])%list. rewrite Htrace, <- app_assoc.
    split; [done|]. rewrite appended_threads_app, Happ.
    split; [by left|]. intros _. left. apply elem_of_add.
  - (* the update branch took the [continue] *)
    split; [by left|].
    exists tr. split; [done|]. split; [by left|].
    intros _. right. by apply Hmark.
  - (* the update branch raised, the handler goes on *)
    rewrite Hproc. split; [by right|].
    exists (tr ++ [EvSave email_id])%list. rewrite Htrace, <- app_assoc.
    split; [done|]. rewrite appended_threads_app, Happ.
    split; [by left|]. intros _. left. apply elem_of_add.
  - (* a new thread, appended or not *)
    rewrite Hproc. split; [by right|].
    exists (tr ++ [EvSave email_id])%list. rewrite Htrace, <- app_assoc.
    split; [done|]. rewrite appended_threads_app.
    split; [|intros _; left; apply elem_of_add].
    destruct Happ as [[-> ?]|[-> ?]]; [by left|right].
    exists (m_threadId e). by split.
  - (* [append_row] raised *)
    split; [by left|].
    exists tr. split; [done|]. split; [|done].
    destruct Happ as [[-> ?]|[-> ?]]; [by left|right].
    exists (m_threadId e). by split.
  - (* the classifier call raised *)
    split; [by left|]. exists []. rewrite app_nil_r.
    split; [done|]. split; [by left|]. done.
  - split; [by right|]. exists [EvSave email_id].
    split; [done|]. split; [by left|]. intros _. left. apply elem_of_add.
Qed.

(** A turn that ends normally has recorded its message, unless it met
    a missing row. *)
Lemma turn_records email_id s s' :
  process_message sv email_id s = (Ret tt, s') →
  email_id ∈ processed_email_ids s'
  ∨ In (EvRowNotFound email_id) (trace s').
Proof.
  intros Hrun. pose proof (process_message_spec email_id s) as H.
  unfold wp in H. rewrite Hrun in H. simpl in H.
  destruct H as (_ & tr & -> & _ & Hrec).
  destruct (Hrec eq_refl) as [?|?]; [by left|right].
  apply in_or_app. by right.
Qed.

(** ** The loop *)

Lemma process_message_threads email_id s :
  threads_known s →
  wp (process_message sv email_id) (λ r s',
    match r with
    | Ret _ => threads_known s'
    | Raise _ => NoDup (appended_threads (trace s'))
    end) s.
Proof.
  intros [Hnd Hk]. eapply wp_mono; [apply process_message_spec|].
  unfold threads_known.
  intros r s' (_ & tr & -> & Happ & _). rewrite appended_threads_app.
  destruct Happ as [[-> Hex]|(thread_id & -> & Hnew & Hex)].
  - rewrite app_nil_r, Hex. by destruct r.
  - assert (NoDup (appended_threads (trace s) ++ [JStr thread_id])) as Hnd'.
    { apply NoDup_app. split; [done|]. split; [|apply NoDup_singleton].
      intros v Hv Hin. apply list_elem_of_In, Hk in Hv as (t & -> & Ht).
      apply list_elem_of_singleton in Hin as [= ->]. done. }
    destruct r; [|done]. split; [done|].
    intros v Hv. rewrite Hex. apply in_app_or in Hv as [Hv|[<-|[]]].
    + destruct (Hk v Hv) as (t & -> & Ht). exists t. split; [done|].
      by apply elem_of_union_l.
    + exists thread_id. split; [done|]. apply elem_of_add.
Qed.

Lemma list_to_set_elements (X : gset string) : list_to_set (elements X) = X.
Proof.
  apply set_eq. intros i. by rewrite elem_of_list_to_set, elem_of_elements.
Qed.

Lemma process_message_recorded email_id seen s :
  recorded seen s →
  wp (process_message sv email_id)
     (λ r s', r = Ret tt → recorded (seen ++ [email_id])%list s') s.
Proof.
  intros [Hfile Hseen]. eapply wp_mono; [apply process_message_spec|].
  unfold recorded.
  intros r s' (Hsave & tr & -> & _ & Hnow) Hr.
  assert (processed_email_ids s ⊆ processed_email_ids s') as Hsub.
  { destruct Hsave as [[-> _]|[-> _]]; [done|]. apply union_subseteq_l. }
  split.
  - destruct Hsave as [[-> ->]|[_ ->]]; [done|]. apply list_to_set_elements.
  - intros i Hi. apply in_app_or in Hi as [Hi|[<-|[]]].
    + destruct (Hseen i Hi) as [?|?]; [left; by apply Hsub|right].
      apply in_or_app. by left.
    + destruct (Hnow Hr) as [?|?]; [by left|right].
      apply in_or_app. by right.
Qed.

(** A loop over messages that are all recorded does nothing. *)
Lemma for_each_skip messages s :
  (∀ i, In i messages → i ∈ processed_email_ids s) →
  for_each messages (process_message sv) s = (Ret tt, s).
Proof.
  induction messages as [|i l IH]; intros H; [done|].
  simpl. unfold bind. rewrite process_message_skip by (apply H; by left).
  apply IH. intros j Hj. apply H. by right.
Qed.

Lemma append_new_raises email s :
  wp (append_new sv email) (λ r _,
    ∀ e, r = Raise e → ∃ w row, append_row sv w row = Raise e) s.
Proof.
  unfold append_new.
  repeat wp_step; try (intros ? [=]). subst. eauto.
Qed.

(** An exception leaves a turn of the loop only from the model call of
    the classifier or from [append_row]; the update branch lets none
    out. *)
Lemma process_message_raises email_id s :
  wp (process_message sv email_id) (λ r _,
    ∀ e, r = Raise e →
      (∃ email_text, is_opportunity_ai_check sv email_text = Raise e)
      ∨ (∃ w row, append_row sv w row = Raise e)) s.
Proof.
  unfold process_message.
  repeat first
    [ lazymatch goal with
      | |- wp (save_processed _) _ _ => unfold save_processed
      | |- wp (update_existing _ _ _) _ _ =>
          eapply wp_mono; [apply update_existing_spec|]; intros ? ? _
      | |- wp (append_new _ _) _ _ =>
          eapply wp_mono; [apply append_new_raises|]; intros ? ? Hraise
      end
    | wp_step ];
    try (intros ? [=]); subst.
  - right. by apply Hraise.
  - left. eauto.
Qed.

(** ** The whole run *)

Lemma notify_spec s :
  wp (notify sv) (λ r s',
    r = Ret tt
    ∧ existing_thread_ids s' = existing_thread_ids s
    ∧ worksheet s' = worksheet s
    ∧ processed_email_ids s' = processed_email_ids s
    ∧ file s' = file s
    ∧ ∃ tr, trace s' = (trace s ++ tr)%list
        ∧ appended_threads tr = []
        ∧ (new_opportunities_to_notify s = [] →
           updated_opportunities_to_notify s = [] → tr = [])) s.
Proof.
  unfold notify.
  repeat wp_step; simpl; repeat (split; [done|]);
    eexists; (split; [solve_trace|]); simpl; split; try done;
    intros; congruence.
Qed.

Lemma main_from_threads s :
  appended_threads (trace s) = [] →
  wp (main_from sv) (λ r s',
    NoDup (appended_threads (trace s'))
    ∧ (r = Ret tt → threads_known s')) s.
Proof.
  intros Hs. unfold main_from.
  assert (NoDup (appended_threads (trace s))) as Hnd
    by (rewrite Hs; apply NoDup_nil_2).
  assert (∀ X Y f (w : W),
            threads_known
              {| processed_email_ids := X; existing_thread_ids := Y;
                 new_opportunities_to_notify := [];
                 updated_opportunities_to_notify := [];
                 file := f; worksheet := w; trace := trace s |}) as Hstart.
  { intros. split; simpl; [done|]. by rewrite Hs. }
  repeat wp_step; try (split; [done|intros [=]]).
  - apply Hstart.
  - eapply wp_mono;
      [apply (wp_for_each threads_known
                (λ s', NoDup (appended_threads (trace s'))));
       [intros; by apply process_message_threads|apply Hstart]|].
    intros [[]|e] s' Hs'; [|by split].
    eapply wp_mono; [apply notify_spec|].
    intros r s'' (-> & Hex & _ & _ & _ & tr & Htr & Happ & _).
    destruct Hs' as [Hn Hk]. unfold threads_known.
    rewrite Htr, appended_threads_app, Happ, app_nil_r, Hex. done.
Qed.

Lemma main_from_recorded s :
  wp (main_from sv) (λ r s',
    r = Ret tt → ∃ messages, get_emails sv = Ret messages ∧ recorded messages s') s.
Proof.
  unfold main_from.
  repeat wp_step; try (intros [=]).
  - exists []. split; [done|]. split; simpl; [|by intros ? []].
    destruct a as [recent f']. by eapply load_file_ids.
  - eapply wp_mono;
      [apply (wp_for_each_seen recorded _ _ []);
       [intros; by apply process_message_recorded|]|].
    + split; simpl; [|by intros ? []].
      destruct a as [recent f']. by eapply load_file_ids.
    + intros [[]|e] s' Hs'; [|by intros [=]].
      destruct (Hs' eq_refl) as [Hfile Hseen]. simpl in Hseen.
      eapply wp_mono; [apply notify_spec|].
      intros r s'' (-> & _ & _ & Hp & Hf & tr & Htr & _) _.
      eexists. split; [done|]. unfold recorded. rewrite Hp, Hf, Htr.
      split; [done|]. intros i Hi.
      destruct (Hseen i Hi) as [?|?]; [by left|right].
      apply in_or_app. by left.
Qed.

(** C10. In a run, the rows handed to [append_row] are keyed by
    distinct threads; and when the run ends normally every such thread
    is in the set of known threads, which is what sends a later message
    of the thread to the update branch. *)
Theorem one_append_per_thread (f : processed_file) (w : W) :
  NoDup (appended_threads (trace (snd (main sv f w))))
  ∧ (fst (main sv f w) = Ret tt → threads_known (snd (main sv f w))).
Proof. unfold main. by apply main_from_threads. Qed.

(** In a run that ends normally, every message listed is recorded in
    the backing file, unless its turn met a missing row. *)
Lemma first_run_records (f : processed_file) (w : W) st messages :
  main sv f w = (Ret tt, st) →
  get_emails sv = Ret messages →
  no_row_not_found (trace st) = true →
  ∀ i, In i messages → i ∈ file_ids (file st).
Proof.
  intros Hrun Hm Hno i Hi.
  pose proof (main_from_recorded
                {| processed_email_ids := ∅; existing_thread_ids := ∅;
                   new_opportunities_to_notify := [];
                   updated_opportunities_to_notify := [];
                   file := f; worksheet := w; trace := [] |}) as H.
  unfold wp in H. fold (main sv f w) in H. rewrite Hrun in H. simpl in H.
  destruct (H eq_refl) as (messages' & Hm' & Hfile & Hseen).
  assert (messages' = messages) as -> by congruence.
  rewrite Hfile. destruct (Hseen i Hi) as [?|Hbad]; [done|].
  unfold no_row_not_found in Hno. rewrite forallb_forall in Hno.
  by apply Hno in Hbad.
Qed.

End ReconcilerFacts.

(** An identifier of the file whose age is below the window survives
    the load. *)
Lemma load_keeps now f recent f' i :
  load_processed_emails now RETENTION_DAYS f = Ret (recent, f') →
  i ∈ file_ids f →
  within_retention now i = true →
  i ∈ recent.
Proof.
  unfold load_processed_emails, within_retention.
  destruct f as [[|ids]|]; simpl; try (intros _ H; by apply not_elem_of_empty in H).
  destruct (recent_ids now RETENTION_DAYS ids) as [s|] eqn:Hs; [|done]. simpl.
  intros Hl Hi Hage.
  assert (s = recent) as <- by (case_bool_decide; congruence).
  apply (recent_ids_spec _ _ _ _ Hs). split; [by apply elem_of_list_to_set in Hi|].
  destruct (get_email_age_days now i) as [a|]; [|done]. eauto.
Qed.

(** C2, as the program has it.  After a run that ended normally and in
    which no turn met a missing row, a second run on the same list of
    messages, all of them with an age inside the retention window,
    calls nothing: no row is appended or updated, no cell is formatted,
    no notification is sent, and the spreadsheet is as the first run
    left it. *)
Theorem second_run_writes_nothing {W} (sv1 sv2 : services W)
    (f : processed_file) (w : W) (st1 : run_state W) (messages : list string) :
  main sv1 f w = (Ret tt, st1) →
  no_row_not_found (trace st1) = true →
  get_emails sv1 = Ret messages →
  get_emails sv2 = Ret messages →
  forallb (within_retention (now sv2)) messages = true →
  trace (snd (main sv2 (file st1) (worksheet st1))) = []
  ∧ worksheet (snd (main sv2 (file st1) (worksheet st1))) = worksheet st1.
Proof.
  intros Hrun Hno Hm1 Hm2 Hages.
  pose proof (first_run_records sv1 f w st1 messages Hrun Hm1 Hno) as Hrec.
  unfold main, main_from, bind, get, lift, sheet_read, modify. simpl.
  destruct (load_processed_emails (now sv2) RETENTION_DAYS (file st1))
    as [[recent f']|e] eqn:Hl; simpl; [|done].
  destruct (col_values sv2 (worksheet st1) 1) as [column|e]; simpl; [|done].
  rewrite Hm2. destruct messages as [|m l] eqn:Hml; [done|]. rewrite <- Hml in *.
  rewrite for_each_skip; [done|].
  intros i Hi. simpl. eapply load_keeps; [done|by apply Hrec|].
  rewrite forallb_forall in Hages. by apply Hages.
Qed.

(** ** The scenarios, run *)

Section Runs.
Import Scenario.
Import Double.

(** C1 fails on the program.  A message passes every filter, its thread
    is listed in the first column, and the row lookup finds nothing:
    the turn ends at the [continue], the run ends normally, and the
    identifier is neither in the set nor in the backing file.  The same
    happens against a consistent spreadsheet when an earlier update of
    the run has rewritten the first cell of the row: the second message
    of the thread is not recorded. *)
Theorem missing_row_not_recorded :
  (let r := main missing_row None sheet_with_T1 in
   fst r = Ret tt
   ∧ trace (snd r) = [EvRowNotFound fresh_id]
   ∧ processed_email_ids (snd r) = ∅
   ∧ file (snd r) = None)
  ∧ (let r := main thread_overwritten None sheet_with_T1 in
     fst r = Ret tt
     ∧ In (EvRowNotFound next_id) (trace (snd r))
     ∧ ¬ In (EvSave next_id) (trace (snd r))
     ∧ file (snd r) = Some (IdArray [fresh_id])).
Proof.
  vm_compute. repeat split; try done.
  - do 3 right. by left.
  - intros H. repeat (destruct H as [H|H]; [discriminate H|]). done.
Qed.

(** C6 fails on the program.  The model call of the classifier raises
    on the first of two messages: the exception leaves [main], and the
    second message is never looked at. *)
Theorem classifier_failure_ends_run :
  let r := main classifier_down None sheet_with_T1 in
  fst r = Raise OtherError
  ∧ trace (snd r) = []
  ∧ processed_email_ids (snd r) = ∅
  ∧ file (snd r) = None.
Proof. by vm_compute. Qed.

(** C9 fails on the program.  With the score ["inf"] the validation
    raises [OverflowError], which only the outer handler catches: the
    whole extraction is lost and the run records the message without
    appending a row. *)
Theorem infinite_score_loses_extraction :
  validate_relevance
    [("Role Title", JStr "Intern"); (RELEVANCE_KEY, JStr "inf")]
    = Raise OverflowError
  ∧ extract_initial_details_with_ai infinite_score (details fresh_id)
      (resume_text infinite_score) = None
  ∧ trace (snd (main infinite_score None empty_sheet)) = [EvSave fresh_id].
Proof. by vm_compute. Qed.

(** C2 as stated fails.  The first run appends the record of a message
    whose identifier decodes to eight days ago; the load of the second
    run prunes that identifier, the message is gone through again, and
    the second run updates the row. *)
Lemma second_run_after_pruning :
  let run1 := main old_run None empty_sheet in
  let run2 := main old_run (file (snd run1)) (worksheet (snd run1)) in
  fst run1 = Ret tt
  ∧ no_row_not_found (trace (snd run1)) = true
  ∧ file (snd run1) = Some (IdArray [old_id])
  ∧ In (EvUpdate 4
          [JStr "T1"; JStr "2025-07-01 09:00:00"; JStr "N/A";
           JStr "HR <hr@iitm.ac.in>"; JStr "N/A"; JStr "All";
           JStr "Senior Intern"])
       (trace (snd run2))
  ∧ nth 3 (worksheet (snd run1)) [] ≠ nth 3 (worksheet (snd run2)) [].
Proof. vm_compute. repeat split; try done. by left. Qed.

(** The missing row has the same effect: the message that was not
    recorded is gone through again by the second run, which appends a
    row for it. *)
Lemma second_run_after_missing_row :
  let run1 := main thread_overwritten None sheet_with_T1 in
  let run2 := main thread_overwritten (file (snd run1)) (worksheet (snd run1)) in
  fst run1 = Ret tt
  ∧ no_row_not_found (trace (snd run1)) = false
  ∧ forallb (within_retention clock) [fresh_id; next_id] = true
  ∧ length (worksheet (snd run1)) = 4
  ∧ length (worksheet (snd run2)) = 5.
Proof. by vm_compute. Qed.

(** C3 as stated fails.  A returned key that is no column header, with
    a value that is neither ["N/A"] nor the stored one, stores
    nothing. *)
Lemma merge_ignores_unknown_key :
  let column_headers := ["Thread ID"; "Location"] in
  let original := original_data_dict column_headers ["T1"; "Delhi"] in
  let updated := [("Stipend Details", JStr "5000")] in
  let m := merge column_headers 4 original updated in
  py_eq (JStr "5000") (JStr "N/A") = false
  ∧ py_eq (dict_get_default "Stipend Details" JNull original) (JStr "5000")
    = false
  ∧ dict_get "Stipend Details" (merged_data m) = None
  ∧ has_changed m = false.
Proof. by vm_compute. Qed.

(** C4 as stated fails.  A returned empty string replaces the stored
    deadline, and the row is written back with the cell emptied. *)
Lemma empty_value_overwrites :
  let column_headers := ["Thread ID"; "Application Deadline"] in
  let original := original_data_dict column_headers ["T1"; "2025-08-01"] in
  let updated := [("Application Deadline", JStr "")] in
  let m := merge column_headers 4 original updated in
  dict_get "Application Deadline" original = Some (JStr "2025-08-01")
  ∧ dict_get "Application Deadline" (merged_data m) = Some (JStr "")
  ∧ has_changed m = true
  ∧ final_row_values column_headers (merged_data m) = [JStr "T1"; JStr ""].
Proof. by vm_compute. Qed.

(** *** Instances of the theorems *)




Lemma merge_law_witness :
  dict_get "Role Title"
    (merged_data
       (merge headers 4
          (original_data_dict headers (nth 3 sheet_with_T1 []))
          [("Role Title", JStr "Senior Intern"); ("Eligibility", JStr "N/A")]))
  = Some (JStr "Senior Intern").
Proof.
  destruct (merge_law headers (nth 3 sheet_with_T1 []) 4
              [("Role Title", JStr "Senior Intern"); ("Eligibility", JStr "N/A")]
              "Role Title" (JStr "Senior Intern")) as [H _].
  - apply (bool_decide_unpack _). vm_compute. exact I.
  - left. reflexivity.
  - destruct H as (stored & Hs & _ & Hnew).
    + vm_compute. tauto.
    + vm_compute in Hs. injection Hs as <-. apply Hnew; reflexivity.
Defined.

Lemma overwrite_guard_witness :
  dict_get "Application Deadline"
    (merged_data
       (merge headers 4
          (original_data_dict headers (nth 3 sheet_with_T1 []))
          [("Application Deadline", JStr "")]))
  = Some (JStr "").
Proof.
  destruct (overwrite_guard headers (nth 3 sheet_with_T1 []) 4
              [("Application Deadline", JStr "")]
              "Application Deadline" (JStr "")) as [_ H].
  - apply (bool_decide_unpack _). vm_compute. exact I.
  - left. reflexivity.
  - apply (H eq_refl "2025-08-01"); [reflexivity | discriminate].
Defined.

Lemma one_append_per_thread_witness :
  threads_known (snd (main two_in_thread None empty_sheet)).
Proof.
  apply (proj2 (one_append_per_thread two_in_thread None empty_sheet)).
  vm_compute. reflexivity.
Defined.

Lemma second_run_writes_nothing_witness :
  let st1 := snd (main fresh_run None empty_sheet) in
  trace (snd (main fresh_run (file st1) (worksheet st1))) = []
  ∧ worksheet (snd (main fresh_run (file st1) (worksheet st1))) = worksheet st1.
Proof.
  intros st1.
  apply (second_run_writes_nothing fresh_run fresh_run None empty_sheet st1
           [fresh_id]); vm_compute; reflexivity.
Defined.

End Runs.

(** ** More on the retention store *)

Lemma recent_ids_defined now retention_days processed_ids recent :
  recent_ids now retention_days processed_ids = Ret recent →
  Forall (λ i, ∃ a, get_email_age_days now i = Ret a) processed_ids.
Proof.
  revert recent. induction processed_ids as [|j l IH]; intros recent; [done|].
  simpl. destruct (get_email_age_days now j) as [a|] eqn:Ha; [|done]. simpl.
  destruct (recent_ids now retention_days l) as [s|]; [|done]. simpl.
  intros _. constructor; eauto.
Qed.

(** X1. Loading is stable: the file a load leaves behind loads again
    (same clock, same window) to the same set, and this second load
    leaves the file as it is. *)
Theorem load_stable (now : Z * Z) (retention_days : Q) (f : processed_file)
    (recent : gset string) (f' : processed_file) :
  load_processed_emails now retention_days f = Ret (recent, f') →
  load_processed_emails now retention_days f' = Ret (recent, f').
Proof.
  intros Hload. pose proof Hload as Hload0. revert Hload.
  unfold load_processed_emails at 1.
  destruct f as [[|ids]|]; simpl; try (by intros [= <- <-]).
  destruct (recent_ids now retention_days ids) as [s|] eqn:Hs; [|done]. simpl.
  case_bool_decide as Hsize; intros [= <- <-]; [|done].
  pose proof (recent_ids_spec _ _ _ _ Hs) as Hspec.
  assert (Forall (λ i, ∃ a, get_email_age_days now i = Ret a) (elements s))
    as Hall.
  { apply Forall_forall. intros i Hi. apply elem_of_elements, Hspec in Hi.
    destruct Hi as (_ & a & Ha & _). eauto. }
  destruct (recent_ids_total now retention_days _ Hall) as [s' Hs'].
  assert (s' = s) as ->.
  { apply set_eq. intros i. rewrite (recent_ids_spec _ _ _ _ Hs' i).
    rewrite elem_of_elements. split; [tauto|]. intros Hi. split; [done|].
    by apply Hspec. }
  unfold load_processed_emails. rewrite Hs'. simpl.
  by rewrite bool_decide_eq_false_2 by (intros H; by apply H).
Qed.

(** X2. What was saved loads back: when the identifiers of the set and
    the new one all have an age inside the window, loading the file
    that [save_processed_email] wrote returns the set with the new
    identifier and leaves the file as it is. *)
Theorem save_then_load (now : Z * Z) (email_id : string)
    (processed_ids : gset string) :
  (∀ i, i ∈ processed_ids ∪ {[email_id]} → within_retention now i = true) →
  let saved := save_processed_email email_id processed_ids in
  fst saved = processed_ids ∪ {[email_id]}
  ∧ load_processed_emails now RETENTION_DAYS (snd saved)
    = Ret (processed_ids ∪ {[email_id]}, snd saved).
Proof.
  intros Hin. simpl. split; [done|].
  set (s := processed_ids ∪ {[email_id]}) in *.
  assert (Forall (λ i, ∃ a, get_email_age_days now i = Ret a) (elements s))
    as Hall.
  { apply Forall_forall. intros i Hi. apply elem_of_elements, Hin in Hi.
    unfold within_retention in Hi.
    destruct (get_email_age_days now i); [eauto|done]. }
  destruct (recent_ids_total now RETENTION_DAYS _ Hall) as [s' Hs'].
  assert (s' = s) as ->.
  { apply set_eq. intros i. rewrite (recent_ids_spec _ _ _ _ Hs' i).
    rewrite elem_of_elements. split; [tauto|]. intros Hi. split; [done|].
    apply Hin in Hi. unfold within_retention in Hi.
    destruct (get_email_age_days now i); [eauto|done]. }
  unfold load_processed_emails. rewrite Hs'. simpl.
  by rewrite bool_decide_eq_false_2 by (intros H; by apply H).
Qed.

Lemma fin_den_pos e : (0 < Py.fin_den e)%Z.
Proof.
  unfold Py.fin_den. destruct (Z.leb_spec 0 e); [lia|].
  apply Z.pow_pos_nonneg; lia.
Qed.

Lemma num_ltb_Q_mono x q1 q2 :
  (q1 <= q2)%Q → Py.num_ltb_Q x q1 = true → Py.num_ltb_Q x q2 = true.
Proof.
  unfold Qle. destruct q1 as [n1 d1], q2 as [n2 d2]. simpl. intros Hle.
  destruct x as [n|[|s|m e]]; simpl; try done.
  - rewrite !Z.ltb_lt. nia.
  - rewrite !Z.ltb_lt. pose proof (fin_den_pos e). nia.
Qed.

(** X3. A load never invents an identifier, and a wider window keeps at
    least what a narrower one keeps. *)
Theorem load_monotone (now : Z * Z) (r1 r2 : Q) (f : processed_file)
    (s1 s2 : gset string) (f1 f2 : processed_file) :
  (r1 <= r2)%Q →
  load_processed_emails now r1 f = Ret (s1, f1) →
  load_processed_emails now r2 f = Ret (s2, f2) →
  s1 ⊆ s2 ∧ s2 ⊆ file_ids f.
Proof.
  intros Hle. unfold load_processed_emails.
  destruct f as [[|ids]|]; simpl; try (by intros [= <- <-] [= <- <-]).
  destruct (recent_ids now r1 ids) as [t1|] eqn:H1; [|done].
  destruct (recent_ids now r2 ids) as [t2|] eqn:H2; [|done]. simpl.
  intros E1 E2.
  assert (t1 = s1) as <- by (destruct (bool_decide _) in E1; congruence).
  assert (t2 = s2) as <- by (destruct (bool_decide _) in E2; congruence).
  pose proof (recent_ids_spec _ _ _ _ H1) as Hs1.
  pose proof (recent_ids_spec _ _ _ _ H2) as Hs2.
  split; intros i Hi.
  - apply Hs1 in Hi as (Hin & a & Ha & Hlt). apply Hs2. split; [done|].
    exists a. split; [done|]. by eapply num_ltb_Q_mono.
  - apply Hs2 in Hi as (Hin & _). by apply elem_of_list_to_set.
Qed.

Lemma load_stable_witness :
  load_processed_emails Scenario.clock RETENTION_DAYS
    (Some (IdArray [Scenario.fresh_id]))
  = Ret ({[Scenario.fresh_id]}, Some (IdArray [Scenario.fresh_id])).
Proof.
  apply (load_stable Scenario.clock RETENTION_DAYS
           (Some (IdArray [Scenario.fresh_id; Scenario.old_id]))).
  vm_compute. reflexivity.
Defined.

Lemma save_then_load_witness :
  load_processed_emails Scenario.clock RETENTION_DAYS
    (snd (save_processed_email Scenario.next_id {[Scenario.fresh_id]}))
  = Ret ({[Scenario.fresh_id]} ∪ {[Scenario.next_id]},
         snd (save_processed_email Scenario.next_id {[Scenario.fresh_id]})).
Proof.
  apply (save_then_load Scenario.clock Scenario.next_id {[Scenario.fresh_id]}).
  intros i Hi. apply elem_of_union in Hi as [Hi|Hi];
    apply elem_of_singleton in Hi; subst i; vm_compute; reflexivity.
Defined.

Lemma load_monotone_witness :
  ({[Scenario.fresh_id]} : gset string)
    ⊆ {[Scenario.fresh_id]} ∪ {[Scenario.old_id]}.
Proof.
  refine (proj1 (load_monotone Scenario.clock 7%Q 9%Q
           (Some (IdArray [Scenario.fresh_id; Scenario.old_id]))
           {[Scenario.fresh_id]} ({[Scenario.fresh_id]} ∪ {[Scenario.old_id]})
           (Some (IdArray [Scenario.fresh_id]))
           (Some (IdArray [Scenario.fresh_id; Scenario.old_id])) _ _ _)).
  - vm_compute. discriminate.
  - vm_compute. reflexivity.
  - vm_compute. reflexivity.
Defined.

(** ** More on the relevance score *)

Lemma dict_keys_set_present key v d :
  is_Some (dict_get key d) → dict_keys (dict_set key v d) = dict_keys d.
Proof.
  induction d as [|[k w] d IH]; simpl; [by intros [? ?]|].
  destruct (String.eqb k key); simpl; [done|]. intros H. by rewrite IH.
Qed.

Lemma dict_set_set key v w d :
  dict_set key v (dict_set key w d) = dict_set key v d.
Proof.
  induction d as [|[k x] d IH]; simpl.
  - by rewrite String.eqb_refl.
  - destruct (String.eqb k key) eqn:E; simpl; rewrite E; [done|].
    by rewrite IH.
Qed.

Lemma relevance_score_of_text n :
  (1 <= n <= 10)%Z → relevance_score (JStr (Py.str_of_int n)) = Ret n.
Proof.
  intros Hn.
  assert (n = 1 ∨ n = 2 ∨ n = 3 ∨ n = 4 ∨ n = 5 ∨ n = 6 ∨ n = 7 ∨ n = 8
          ∨ n = 9 ∨ n = 10)%Z as Hc by lia.
  repeat destruct Hc as [->|Hc]; try subst n; by vm_compute.
Qed.

(** X4. The validation of the relevance score touches that one entry
    only: the keys of the dictionary and their order stay as the model
    returned them (a missing score is not added), and every other value
    is unchanged. *)
Theorem validate_relevance_frame (extracted_data validated : dict) :
  validate_relevance extracted_data = Ret validated →
  dict_keys validated = dict_keys extracted_data
  ∧ ∀ key, key ≠ RELEVANCE_KEY →
      dict_get key validated = dict_get key extracted_data.
Proof.
  unfold validate_relevance.
  destruct (dict_get RELEVANCE_KEY extracted_data) as [score|] eqn:Hs.
  - assert (∀ v, dict_keys (dict_set RELEVANCE_KEY v extracted_data)
                 = dict_keys extracted_data
                 ∧ ∀ key, key ≠ RELEVANCE_KEY →
                     dict_get key (dict_set RELEVANCE_KEY v extracted_data)
                     = dict_get key extracted_data) as Hset.
    { intros v. split.
      - apply dict_keys_set_present. by rewrite Hs.
      - intros key Hne. by apply dict_get_set_ne. }
    destruct (relevance_score score) as [n|[]]; try done;
      intros [= <-]; apply Hset.
  - by intros [= <-].
Qed.

(** X5. Validating twice is validating once: a dictionary that left
    the validation is returned unchanged by a second validation (the
    stored text of an integer from 1 to 10 reads back as that
    integer). *)
Theorem validate_relevance_idempotent (extracted_data validated : dict) :
  validate_relevance extracted_data = Ret validated →
  validate_relevance validated = Ret validated.
Proof.
  intros Hv. pose proof Hv as Hv0. revert Hv. unfold validate_relevance at 1.
  destruct (dict_get RELEVANCE_KEY extracted_data) as [score|] eqn:Hs.
  - destruct (validate_relevance_range _ _ _ Hs Hv0) as (n & Hn & Hget).
    assert (∀ v, validated = dict_set RELEVANCE_KEY v extracted_data →
                 dict_set RELEVANCE_KEY (JStr (Py.str_of_int n)) validated
                 = validated) as Hfix.
    { intros v ->. rewrite dict_get_set_eq in Hget. injection Hget as ->.
      by rewrite dict_set_set. }
    intros Hv. unfold validate_relevance. rewrite Hget.
    rewrite relevance_score_of_text by done. f_equal.
    destruct (relevance_score score) as [m|[]]; try done;
      injection Hv as Hv; by eapply Hfix.
  - intros [= <-]. unfold validate_relevance. by rewrite Hs.
Qed.

Lemma validate_relevance_frame_witness :
  dict_keys [("Role Title", JStr "Intern"); (RELEVANCE_KEY, JStr "8")]
  = dict_keys [("Role Title", JStr "Intern"); (RELEVANCE_KEY, JStr "8/10")].
Proof.
  refine (proj1 (validate_relevance_frame
                   [("Role Title", JStr "Intern"); (RELEVANCE_KEY, JStr "8/10")]
                   [("Role Title", JStr "Intern"); (RELEVANCE_KEY, JStr "8")] _)).
  vm_compute. reflexivity.
Defined.

Lemma validate_relevance_idempotent_witness :
  validate_relevance [(RELEVANCE_KEY, JStr "10")]
  = Ret [(RELEVANCE_KEY, JStr "10")].
Proof.
  apply (validate_relevance_idempotent [(RELEVANCE_KEY, JNum (Py.NInt 42))]).
  vm_compute. reflexivity.
Defined.

(** ** More on the merge *)

Lemma overwrites_mem merged key new_value :
  overwrites merged key new_value = true → is_Some (dict_get key merged).
Proof.
  rewrite overwrites_get. destruct (dict_get key merged); [eauto|done].
Qed.

Lemma merge_step_keys column_headers row st item :
  dict_keys (merged_data (merge_step column_headers row st item))
  = dict_keys (merged_data st).
Proof.
  destruct item as [k v]. unfold merge_step.
  destruct (overwrites _ _ _) eqn:E; simpl; [|done].
  apply dict_keys_set_present. by eapply overwrites_mem.
Qed.

Lemma merge_fold_keys column_headers row items st :
  dict_keys (merged_data (fold_left (merge_step column_headers row) items st))
  = dict_keys (merged_data st).
Proof.
  revert st. induction items as [|it items IH]; intros st; [done|].
  cbn [fold_left]. by rewrite IH, merge_step_keys.
Qed.

Lemma merge_step_guard column_headers row st k v key new_value :
  k ≠ key →
  overwrites (merged_data (merge_step column_headers row st (k, v))) key new_value
  = overwrites (merged_data st) key new_value.
Proof.
  intros Hne. by rewrite !overwrites_get, merge_step_other.
Qed.

Lemma existsb_passes_step column_headers row st k v items :
  ¬ In k (dict_keys items) →
  existsb (passes (merged_data (merge_step column_headers row st (k, v)))) items
  = existsb (passes (merged_data st)) items.
Proof.
  induction items as [|[k' v'] items IH]; [done|]. cbn [existsb].
  intros Hn. simpl in Hn.
  rewrite IH by (intros ?; apply Hn; by right).
  f_equal. unfold passes. cbn [fst snd].
  apply merge_step_guard. intros ->. apply Hn. by left.
Qed.

Lemma merge_fold_changed column_headers row items st :
  NoDup (dict_keys items) →
  has_changed (fold_left (merge_step column_headers row) items st)
  = has_changed st || existsb (passes (merged_data st)) items.
Proof.
  revert st. induction items as [|[k v] items IH]; intros st Hnd.
  - simpl. by rewrite orb_false_r.
  - cbn [fold_left]. simpl in Hnd. apply NoDup_cons in Hnd as [Hk Hnd].
    rewrite IH by done. rewrite existsb_passes_step by (by rewrite <- list_elem_of_In).
    cbn [existsb].
    change (passes (merged_data st) (k, v))
      with (overwrites (merged_data st) k v).
    unfold merge_step.
    destruct (overwrites (merged_data st) k v); cbn [has_changed orb];
      [by rewrite orb_true_r|done].
Qed.

Lemma merge_fold_unchanged column_headers row items st :
  has_changed (fold_left (merge_step column_headers row) items st) = false →
  fold_left (merge_step column_headers row) items st = st.
Proof.
  revert st. induction items as [|[k v] items IH]; intros st; [done|].
  cbn [fold_left]. intros H. pose proof (IH _ H) as E. rewrite E in *.
  revert H. unfold merge_step.
  destruct (overwrites (merged_data st) k v); simpl; done.
Qed.

(** X6. The merge neither adds, removes nor moves a column of the
    stored row, and a field the response does not mention keeps its
    stored value. *)
Theorem merge_keeps_columns (column_headers : list string) (row : nat)
    (original updated_data_json : dict) :
  let merged := merged_data (merge column_headers row original updated_data_json) in
  dict_keys merged = dict_keys original
  ∧ ∀ key, ¬ In key (dict_keys updated_data_json) →
      dict_get key merged = dict_get key original.
Proof.
  simpl. split.
  - unfold merge. by rewrite merge_fold_keys.
  - intros key Hn. unfold merge. by rewrite merge_fold_other.
Qed.

Lemma merge_has_changed column_headers row original updated_data_json :
  NoDup (dict_keys updated_data_json) →
  has_changed (merge column_headers row original updated_data_json)
  = existsb (passes original) updated_data_json.
Proof. intros Hnd. unfold merge. by rewrite merge_fold_changed. Qed.

Lemma merge_unchanged column_headers row original updated_data_json :
  has_changed (merge column_headers row original updated_data_json) = false →
  merged_data (merge column_headers row original updated_data_json) = original
  ∧ cells_to_format (merge column_headers row original updated_data_json) = [].
Proof.
  intros H. unfold merge in *. by rewrite (merge_fold_unchanged _ _ _ _ H).
Qed.

(** X7. The row is written back exactly when some returned field passes
    the guard against the stored values; when none does, the merged
    copy is the stored row and no cell is marked. *)
Theorem merge_changed_iff (column_headers : list string) (row : nat)
    (original updated_data_json : dict) :
  NoDup (dict_keys updated_data_json) →
  let m := merge column_headers row original updated_data_json in
  has_changed m
  = existsb (λ item, overwrites original item.1 item.2) updated_data_json
  ∧ (has_changed m = false →
     merged_data m = original ∧ cells_to_format m = []).
Proof.
  intros Hnd. simpl. split.
  - by apply merge_has_changed.
  - apply merge_unchanged.
Qed.


Lemma original_data_dict_from_other hs rs acc key :
  key ∉ hs →
  dict_get key (original_data_dict_from hs rs acc) = dict_get key acc.
Proof.
  revert rs acc. induction hs as [|h hs IH]; intros rs acc Hn; [done|].
  simpl. apply not_elem_of_cons in Hn as [Hne Hn].
  rewrite IH by done. by apply dict_get_set_ne.
Qed.

Lemma original_data_dict_from_nth hs rs acc i key :
  NoDup hs → hs !! i = Some key →
  dict_get key (original_data_dict_from hs rs acc) = Some (JStr (nth i rs "")).
Proof.
  revert rs acc i. induction hs as [|h hs IH]; intros rs acc i Hnd Hi; [done|].
  apply NoDup_cons in Hnd as [Hh Hnd]. destruct i as [|i]; simpl in *.
  - injection Hi as ->. rewrite original_data_dict_from_other by done.
    rewrite dict_get_set_eq. by destruct rs.
  - rewrite (IH _ _ i) by done. destruct rs; simpl; [by destruct i|done].
Qed.

Lemma list_index_lookup key hs i :
  list_index key hs = Some i → hs !! i = Some key.
Proof.
  revert i. induction hs as [|h hs IH]; intros i; simpl; [done|].
  destruct (String.eqb_spec h key) as [->|Hne].
  - by intros [= <-].
  - destruct (list_index key hs) as [j|]; simpl; [|done].
    intros [= <-]. by apply IH.
Qed.

Lemma list_index_some key hs :
  In key hs → is_Some (list_index key hs).
Proof.
  induction hs as [|h hs IH]; simpl; [done|].
  destruct (String.eqb_spec h key) as [->|Hne]; [eauto|].
  intros [?|Hin]; [done|]. destruct (IH Hin) as [j ->]. simpl. eauto.
Qed.

(** X9. The row written back has one cell per header.  With distinct
    headers, the cell under a header the response does not mention is
    the stored cell (blank where the stored row was shorter than the
    header row), and the cell under a returned header is the returned
    value if it passed the guard and the stored cell otherwise. *)
Theorem written_row (column_headers row_values : list string) (row : nat)
    (updated_data_json : dict) :
  NoDup column_headers →
  NoDup (dict_keys updated_data_json) →
  let original := original_data_dict column_headers row_values in
  let m := merge column_headers row original updated_data_json in
  let values := final_row_values column_headers (merged_data m) in
  length values = length column_headers
  ∧ (∀ i header, column_headers !! i = Some header →
       ¬ In header (dict_keys updated_data_json) →
       values !! i = Some (JStr (nth i row_values "")))
  ∧ (∀ i header new_value, column_headers !! i = Some header →
       In (header, new_value) updated_data_json →
       values !! i = Some (if overwrites original header new_value
                           then new_value
                           else JStr (nth i row_values ""))).
Proof.
  intros Hh Hk. simpl. unfold final_row_values.
  split; [by rewrite length_map|]. split.
  - intros i header Hi Hn. rewrite list_lookup_fmap, Hi. simpl.
    unfold dict_get_default, merge. rewrite merge_fold_other by done. simpl.
    unfold original_data_dict.
    by rewrite (original_data_dict_from_nth _ _ _ i).
  - intros i header new_value Hi Hin. rewrite list_lookup_fmap, Hi. simpl.
    unfold dict_get_default, merge.
    rewrite (merge_fold_key _ _ _ _ header new_value) by done. simpl.
    destruct (overwrites _ _ _); [done|]. unfold original_data_dict.
    by rewrite (original_data_dict_from_nth _ _ _ i).
Qed.

Lemma merge_fold_cells column_headers row items st r c :
  NoDup (dict_keys items) →
  In (r, c) (cells_to_format (fold_left (merge_step column_headers row) items st))
  ↔ In (r, c) (cells_to_format st)
    ∨ (r = row ∧ ∃ key new_value i,
         In (key, new_value) items
         ∧ overwrites (merged_data st) key new_value = true
         ∧ list_index key column_headers = Some i ∧ c = S i).
Proof.
  revert st. induction items as [|[k v] items IH]; intros st Hnd.
  - simpl. split; [tauto|]. intros [?|(_ & ? & ? & ? & [] & _)]; done.
  - cbn [fold_left]. simpl in Hnd. apply NoDup_cons in Hnd as [Hk Hnd].
    rewrite IH by done.
    assert (∀ key new_value, In (key, new_value) items →
              overwrites (merged_data (merge_step column_headers row st (k, v)))
                key new_value
              = overwrites (merged_data st) key new_value) as Hg.
    { intros key new_value Hin. apply merge_step_guard. intros ->.
      apply Hk, list_elem_of_In, in_map_iff. by exists (key, new_value). }
    assert (In (r, c) (cells_to_format (merge_step column_headers row st (k, v)))
            ↔ In (r, c) (cells_to_format st)
              ∨ (r = row ∧ ∃ i, overwrites (merged_data st) k v = true
                   ∧ list_index k column_headers = Some i ∧ c = S i)) as Hc.
    { unfold merge_step. destruct (overwrites (merged_data st) k v); simpl.
      - destruct (list_index k column_headers) as [j|].
        + rewrite in_app_iff. simpl. split.
          * intros [?|[[= <- <-]|[]]]; [tauto|]. right. eauto.
          * intros [?|(-> & i & _ & [= <-] & ->)]; tauto.
        + split; [tauto|]. intros [?|(_ & ? & _ & ? & _)]; done.
      - split; [tauto|]. intros [?|(_ & ? & ? & _)]; done. }
    rewrite Hc. split.
    + intros [[?|(-> & i & Ho & Hi & ->)]|(-> & key & nv & i & Hin & Ho & Hi & ->)].
      * tauto.
      * right. split; [done|]. exists k, v, i. simpl. tauto.
      * right. split; [done|]. exists key, nv, i. rewrite Hg in Ho by done.
        simpl. tauto.
    + intros [?|(-> & key & nv & i & [[= <- <-]|Hin] & Ho & Hi & ->)].
      * tauto.
      * left. right. eauto.
      * right. split; [done|]. exists key, nv, i. rewrite Hg by done. tauto.
Qed.

(** X10. The cells marked for highlighting lie in the updated row, one
    under each returned header whose value passed the guard, and in no
    other place; a row that is written back has at least one. *)
Theorem marked_cells (column_headers row_values : list string) (row : nat)
    (updated_data_json : dict) :
  NoDup (dict_keys updated_data_json) →
  let original := original_data_dict column_headers row_values in
  let m := merge column_headers row original updated_data_json in
  (∀ r c, In (r, c) (cells_to_format m) →
     r = row ∧ ∃ key new_value,
       column_headers !! pred c = Some key ∧ c ≠ 0%nat
       ∧ In (key, new_value) updated_data_json
       ∧ overwrites original key new_value = true)
  ∧ (∀ key new_value, In (key, new_value) updated_data_json →
       overwrites original key new_value = true →
       ∃ c, In (row, c) (cells_to_format m)
            ∧ column_headers !! pred c = Some key)
  ∧ (has_changed m = true → cells_to_format m ≠ []).
Proof.
  intros Hnd. simpl.
  set (original := original_data_dict column_headers row_values).
  assert (Hback : ∀ key new_value, In (key, new_value) updated_data_json →
            overwrites original key new_value = true →
            ∃ c, In (row, c)
                   (cells_to_format
                      (merge column_headers row original updated_data_json))
                 ∧ column_headers !! pred c = Some key).
  { intros key new_value Hin Ho.
    assert (In key column_headers) as Hkey.
    { apply (original_data_dict_keys _ row_values). by eapply overwrites_mem. }
    destruct (list_index_some _ _ Hkey) as [i Hi]. exists (S i). split.
    - unfold merge. apply merge_fold_cells; [done|]. right.
      split; [done|]. by exists key, new_value, i.
    - by apply list_index_lookup. }
  split; [|split; [done|]].
  - intros r c Hin. unfold merge in Hin. apply merge_fold_cells in Hin; [|done].
    destruct Hin as [[]|(-> & key & nv & i & Hin & Ho & Hi & ->)].
    split; [done|]. exists key, nv. simpl.
    split; [by apply list_index_lookup|]. done.
  - intros Hch. rewrite (merge_has_changed _ row original _ Hnd) in Hch.
    apply existsb_exists in Hch as ([k v] & Hin & Ho).
    destruct (Hback k v Hin Ho) as (c & Hc & _). intros E. by rewrite E in Hc.
Qed.

Lemma merge_keeps_columns_witness :
  let original :=
    original_data_dict Scenario.headers (nth 3 Scenario.sheet_with_T1 []) in
  dict_get "Sender"
    (merged_data
       (merge Scenario.headers 4 original
          [("Role Title", JStr "Senior Intern"); ("Eligibility", JStr "N/A")]))
  = dict_get "Sender" original.
Proof.
  intros original.
  apply (proj2 (merge_keeps_columns Scenario.headers 4 original
                  [("Role Title", JStr "Senior Intern");
                   ("Eligibility", JStr "N/A")])).
  simpl. intros [H|[H|[]]]; discriminate H.
Defined.

Lemma merge_changed_iff_witness :
  has_changed
    (merge Scenario.headers 4
       (original_data_dict Scenario.headers (nth 3 Scenario.sheet_with_T1 []))
       [("Role Title", JStr "Intern"); ("Eligibility", JStr "N/A")])
  = false.
Proof.
  refine (eq_trans
            (proj1 (merge_changed_iff Scenario.headers 4
                      (original_data_dict Scenario.headers
                         (nth 3 Scenario.sheet_with_T1 []))
                      [("Role Title", JStr "Intern");
                       ("Eligibility", JStr "N/A")] _)) _).
  - apply (bool_decide_unpack _). vm_compute. exact I.
  - vm_compute. reflexivity.
Defined.


Lemma written_row_witness :
  final_row_values Scenario.headers
    (merged_data
       (merge Scenario.headers 4
          (original_data_dict Scenario.headers ["T1"; "2025-06-30 10:00:00"])
          [("Role Title", JStr "Senior Intern")])) !! 3%nat
  = Some (JStr "").
Proof.
  apply (proj1 (proj2 (written_row Scenario.headers
                         ["T1"; "2025-06-30 10:00:00"] 4
                         [("Role Title", JStr "Senior Intern")]
                         ltac:(apply (bool_decide_unpack _); vm_compute; exact I)
                         ltac:(apply (bool_decide_unpack _); vm_compute; exact I)))
           3%nat "Sender").
  - reflexivity.
  - simpl. intros [H|[]]. discriminate H.
Defined.

Lemma marked_cells_witness :
  ∃ c, In (4%nat, c)
         (cells_to_format
            (merge Scenario.headers 4
               (original_data_dict Scenario.headers
                  (nth 3 Scenario.sheet_with_T1 []))
               [("Role Title", JStr "Senior Intern")]))
       ∧ Scenario.headers !! pred c = Some "Role Title".
Proof.
  apply (proj1 (proj2 (marked_cells Scenario.headers
                         (nth 3 Scenario.sheet_with_T1 []) 4
                         [("Role Title", JStr "Senior Intern")]
                         ltac:(apply (bool_decide_unpack _); vm_compute; exact I)))
           "Role Title" (JStr "Senior Intern")).
  - left. reflexivity.
  - vm_compute. reflexivity.
Defined.

(** ** More on the run *)

Lemma saved_ids_app tr1 tr2 :
  saved_ids (tr1 ++ tr2) = (saved_ids tr1 ++ saved_ids tr2)%list.
Proof. apply flat_map_app. Qed.

Lemma notifications_app tr1 tr2 :
  notifications (tr1 ++ tr2) = (notifications tr1 ++ notifications tr2)%list.
Proof. apply flat_map_app. Qed.

Lemma wp_and {S A} (m : stmt S A) (Q1 Q2 : outcome A → S → Prop) s :
  wp m Q1 s → wp m Q2 s → wp m (λ r s', Q1 r s' ∧ Q2 r s') s.
Proof. unfold wp. by split. Qed.

(** A loop whose body keeps [I], however it ends, for the elements of
    the list. *)
Lemma wp_for_each_in {S A} (I : S → Prop) (body : A → stmt S unit) l s :
  (∀ x s, In x l → I s → wp (body x) (λ _ s', I s') s) →
  I s → wp (for_each l body) (λ _ s', I s') s.
Proof.
  revert s. induction l as [|x l IH]; intros s Hbody HI; [done|].
  simpl. apply wp_bind. eapply wp_mono; [apply Hbody; [by left|done]|].
  intros [[]|e] s' HI'; [|done].
  apply IH; [|done]. intros y s0 Hy. apply Hbody. by right.
Qed.

(** A loop raises what its body raises. *)
Lemma wp_for_each_raise {S A} (P : exn → Prop) (body : A → stmt S unit) l s :
  (∀ x s, wp (body x) (λ r _, ∀ e, r = Raise e → P e) s) →
  wp (for_each l body) (λ r _, ∀ e, r = Raise e → P e) s.
Proof.
  intros Hbody. revert s. induction l as [|x l IH]; intros s; [done|].
  simpl. apply wp_bind. eapply wp_mono; [apply Hbody|].
  intros [[]|e] s' H; [apply IH|done].
Qed.

Section ReconcilerMore.
Context {W : Type} (sv : services W).

Ltac solve_events :=
  simpl; repeat (split; [done|]);
  eexists; (split; [solve_trace|]); simpl; repeat split; try done.

Lemma update_existing_events email_id email s :
  wp (update_existing sv email_id email) (λ r s',
    processed_email_ids s' = processed_email_ids s
    ∧ file s' = file s
    ∧ new_opportunities_to_notify s' = new_opportunities_to_notify s
    ∧ ∃ tr, trace s' = (trace s ++ tr)%list
        ∧ notifications tr = [] ∧ saved_ids tr = []
        ∧ appended_threads tr = []) s.
Proof. unfold update_existing. repeat wp_step; solve_events. Qed.

Lemma append_new_events email s :
  wp (append_new sv email) (λ r s',
    processed_email_ids s' = processed_email_ids s
    ∧ file s' = file s
    ∧ ∃ tr, trace s' = (trace s ++ tr)%list
        ∧ notifications tr = [] ∧ saved_ids tr = []
        ∧ (r = Ret tt →
           length (new_opportunities_to_notify s')
           = (length (new_opportunities_to_notify s)
              + length (appended_threads tr))%nat)) s.
Proof.
  unfold append_new. repeat wp_step; solve_events; try (intros; lia).
  intros _. rewrite length_app. simpl. lia.
Qed.

Ltac wp_turn :=
  cbn beta iota zeta delta [fst snd];
  lazymatch goal with
  | |- wp (save_processed _) _ _ => unfold save_processed
  | |- wp (update_existing _ _ _) _ _ =>
      eapply wp_mono; [apply update_existing_events|];
      intros ? ? (Hproc & Hfile & Hnew & tr & Htrace & Hsent & Hsaved & Happ)
  | |- wp (append_new _ _) _ _ =>
      eapply wp_mono; [apply append_new_events|];
      intros ? ? (Hproc & Hfile & tr & Htrace & Hsent & Hsaved & Hnew)
  | _ => wp_step
  end.

Ltac fin_turn :=
  simpl; rewrite ?app_nil_r;
  repeat match goal with |- _ ∧ _ => split end;
  lazymatch goal with
  | |- _ ∨ _ =>
      first [ by left
            | right; repeat match goal with |- _ ∧ _ => split end;
              first [done | apply elem_of_add] ]
  | |- _ = Ret _ → _ =>
      first [ done
            | intros _;
              first [ simpl; lia
                    | match goal with H : _ |- _ => by apply H end ] ]
  | |- _ => done
  end.

(** The events of one turn of the loop. *)
Lemma process_message_events email_id s :
  wp (process_message sv email_id) (λ r s',
    processed_email_ids s ⊆ processed_email_ids s'
    ∧ ∃ tr, trace s' = (trace s ++ tr)%list
        ∧ notifications tr = []
        ∧ (saved_ids tr = []
           ∨ saved_ids tr = [email_id]
             ∧ (email_id ∉ processed_email_ids s)
             ∧ email_id ∈ processed_email_ids s')
        ∧ (r = Ret tt →
           length (new_opportunities_to_notify s')
           = (length (new_opportunities_to_notify s)
              + length (appended_threads tr))%nat)) s.
Proof.
  unfold process_message.
  repeat wp_turn; simpl in *;
    repeat match goal with
           | H : bool_decide _ = true |- _ => apply bool_decide_eq_true in H
           | H : bool_decide _ = false |- _ => apply bool_decide_eq_false in H
           end;
    try rewrite Hproc; try rewrite Htrace;
    (split; [first [done | apply union_subseteq_l]|]).
  - exists []. rewrite app_nil_r. fin_turn.
  - exists [EvSave email_id]. fin_turn.
  - exists [EvSave email_id]. fin_turn.
  - exists [EvSave email_id]. fin_turn.
  - exists (tr ++ [EvSave email_id])%list.
    rewrite <- app_assoc, notifications_app, saved_ids_app,
      appended_threads_app, Hsent, Hsaved, Happ, Hnew. fin_turn.
  - exists tr. rewrite Happ, Hnew. fin_turn.
  - exists (tr ++ [EvSave email_id])%list.
    rewrite <- app_assoc, notifications_app, saved_ids_app,
      appended_threads_app, Hsent, Hsaved, Happ, Hnew. fin_turn.
  - exists (tr ++ [EvSave email_id])%list.
    rewrite <- app_assoc, notifications_app, saved_ids_app,
      appended_threads_app, Hsent, Hsaved, app_nil_r.
    match goal with x : unit |- _ => destruct x end. fin_turn.
  - exists tr. fin_turn.
  - exists []. rewrite app_nil_r. fin_turn.
  - exists [EvSave email_id]. fin_turn.
Qed.

(** X11. Each of the four early exits of the loop (no metadata, sender
    outside the trusted domains, no keyword, classifier answering no)
    only records the message: the spreadsheet, the known threads and
    the two queues are untouched, and neither extraction is asked. *)
Theorem early_exit_only_records (email_id : string) (s : run_state W) :
  email_id ∉ processed_email_ids s →
  match get_email_metadata sv email_id with
  | None => True
  | Some email_metadata =>
      from_trusted_domain email_metadata = false
      ∨ has_keyword email_metadata = false
      ∨ is_opportunity_ai_check sv (email_text_for_search email_metadata)
        = Ret false
  end →
  process_message sv email_id s
  = (Ret tt,
     {| processed_email_ids := processed_email_ids s ∪ {[email_id]};
        existing_thread_ids := existing_thread_ids s;
        new_opportunities_to_notify := new_opportunities_to_notify s;
        updated_opportunities_to_notify := updated_opportunities_to_notify s;
        file := Some (IdArray (elements (processed_email_ids s ∪ {[email_id]})));
        worksheet := worksheet s;
        trace := (trace s ++ [EvSave email_id])%list |}).
Proof.
  intros Hnew Hexit. unfold process_message, bind, get.
  rewrite bool_decide_eq_false_2 by done.
  destruct (get_email_metadata sv email_id) as [email_metadata|]; [|done].
  unfold from_trusted_domain, has_keyword, email_text_for_search in Hexit.
  destruct (existsb _ TRUSTED_DOMAINS); [|done]. cbn [negb].
  destruct (existsb _ OPPORTUNITY_KEYWORDS); [|done]. cbn [negb].
  destruct Hexit as [?|[?|Hno]]; [done|done|].
  unfold lift. by rewrite Hno.
Qed.

Lemma main_from_mirror s :
  wp (main_from sv) (λ r s',
    (∃ loaded,
       load_processed_emails (now sv) RETENTION_DAYS (file s) = Ret loaded) →
    file_ids (file s') = processed_email_ids s') s.
Proof.
  unfold main_from.
  repeat wp_step; try (intros [? [=]]; fail);
    try (intros _; simpl; destruct a as [recent f']; by eapply load_file_ids).
  eapply wp_mono;
    [apply (wp_for_each_in
              (λ s', file_ids (file s') = processed_email_ids s'))|].
  - intros x t _ Ht. eapply wp_mono; [apply process_message_spec|].
    intros r t' ([[-> ->]|[_ ->]] & _); [done|]. apply list_to_set_elements.
  - simpl. destruct a as [recent f']. by eapply load_file_ids.
  - intros [[]|e] s' Hs'; [|done].
    eapply wp_mono; [apply notify_spec|].
    intros r s'' (_ & _ & _ & -> & -> & _) _. done.
Qed.

(** X12. Past the load, the backing file holds exactly the identifiers
    of the set in memory at the end of the run, however the run ends. *)
Theorem file_mirrors_set (f : processed_file) (w : W) :
  (∃ loaded, load_processed_emails (now sv) RETENTION_DAYS f = Ret loaded) →
  file_ids (file (snd (main sv f w)))
  = processed_email_ids (snd (main sv f w)).
Proof. intros H. unfold main. by apply main_from_mirror. Qed.

Lemma main_from_sends s :
  notifications (trace s) = [] → appended_threads (trace s) = [] →
  wp (main_from sv) (λ r s',
    notifications (trace s') = []
    ∨ ∃ tr news updates,
        trace s' = (tr ++ [EvSend news updates])%list
        ∧ notifications tr = []
        ∧ telegram_configured sv = true
        ∧ r = Ret tt
        ∧ (news ≠ [] ∨ updates ≠ [])
        ∧ length news = length (appended_threads tr)) s.
Proof.
  intros Hs Ha. unfold main_from.
  repeat wp_step; try (by left).
  eapply wp_mono;
    [apply (wp_for_each
              (λ s', notifications (trace s') = []
                     ∧ length (new_opportunities_to_notify s')
                       = length (appended_threads (trace s')))
              (λ s', notifications (trace s') = []))|].
  - intros x t [Hn Hl]. eapply wp_mono; [apply process_message_events|].
    intros r t' (_ & tr & -> & Hsent & _ & Hlen).
    rewrite notifications_app, Hn, Hsent.
    destruct r as [[]|e]; [|done]. split; [done|].
    rewrite appended_threads_app, length_app, <- Hl. by apply Hlen.
  - simpl. by rewrite Ha.
  - intros [[]|e] t Ht; [|by left]. destruct Ht as [Hn Hl].
    unfold notify, wp, bind, get. simpl.
    destruct (new_opportunities_to_notify t) as [|d news] eqn:En;
      destruct (updated_opportunities_to_notify t) as [|u ups] eqn:Eu;
      destruct (telegram_configured sv) eqn:Et; simpl; try (by left);
      right; eexists (trace t), _, _; (split; [done|]);
      repeat split; try done; first [by left | by right].
Qed.

(** X13. A run sends at most one summary, as its last effect and only
    when it ends normally with the channel configured and something
    queued; the summary lists as many new opportunities as rows were
    handed to [append_row]. *)
Theorem one_notification_at_the_end (f : processed_file) (w : W) :
  let r := fst (main sv f w) in
  let s' := snd (main sv f w) in
  notifications (trace s') = []
  ∨ ∃ tr news updates,
      trace s' = (tr ++ [EvSend news updates])%list
      ∧ notifications tr = []
      ∧ telegram_configured sv = true
      ∧ r = Ret tt
      ∧ (news ≠ [] ∨ updates ≠ [])
      ∧ length news = length (appended_threads tr).
Proof. unfold main. by apply main_from_sends. Qed.

Lemma main_from_fresh s :
  appended_threads (trace s) = [] →
  wp (main_from sv) (λ _ s',
    ∀ column, col_values sv (worksheet s) 1 = Ret column →
    ∀ v, In v (appended_threads (trace s')) →
      ∃ thread_id, v = JStr thread_id ∧ thread_id ∉ drop 3 column) s.
Proof.
  intros Ha. unfold main_from.
  repeat wp_step; cbn [worksheet] in *;
    try (intros column _ v Hv; simpl in Hv; by rewrite Ha in Hv).
  match goal with
  | H : col_values sv (worksheet s) 1 = Ret ?c |- _ =>
      rename H into Hcol; set (column := c) in *
  end.
  eapply wp_mono;
    [apply (wp_for_each_in
              (λ s', (list_to_set (drop 3 column) : gset string)
                       ⊆ existing_thread_ids s'
                     ∧ ∀ v, In v (appended_threads (trace s')) →
                         ∃ thread_id, v = JStr thread_id
                                      ∧ thread_id ∉ drop 3 column))|].
  - intros x t _ [Hsub Hfresh]. eapply wp_mono; [apply process_message_spec|].
    intros r t' (_ & tr & -> & Happ & _). rewrite appended_threads_app.
    destruct Happ as [[-> ->]|(thread_id & -> & Hnew & Hex)].
    + by rewrite app_nil_r.
    + split.
      * destruct r; rewrite Hex; [|done].
        etrans; [done|]. apply union_subseteq_l.
      * intros v Hv. apply in_app_or in Hv as [Hv|[<-|[]]]; [by apply Hfresh|].
        exists thread_id. split; [done|]. intros Hin. apply Hnew, Hsub.
        by apply elem_of_list_to_set.
  - simpl. split; [done|]. intros v Hv. by rewrite Ha in Hv.
  - intros r t [_ Hfresh]. destruct r as [[]|e].
    + eapply wp_mono; [apply notify_spec|].
      intros r t' (_ & _ & _ & _ & _ & tr & -> & Happ & _) column' Hc v Hv.
      rewrite appended_threads_app, Happ, app_nil_r in Hv.
      rewrite Hcol in Hc. injection Hc as <-. by apply Hfresh.
    + intros column' Hc v Hv.
      rewrite Hcol in Hc. injection Hc as <-. by apply Hfresh.
Qed.

(** X14. No row is appended for a thread that the first column of the
    spreadsheet lists below the header rows when the run starts: every
    row handed to [append_row] is keyed by a thread absent from it. *)
Theorem no_append_for_listed_thread (f : processed_file) (w : W)
    (column : list string) (v : json) :
  col_values sv w 1 = Ret column →
  In v (appended_threads (trace (snd (main sv f w)))) →
  ∃ thread_id, v = JStr thread_id ∧ thread_id ∉ drop 3 column.
Proof.
  intros Hc Hv. unfold main in Hv.
  match type of Hv with
  | context [main_from sv ?s0] =>
      exact (main_from_fresh s0 eq_refl column Hc v Hv)
  end.
Qed.

Lemma get_emails_listed messages :
  get_emails sv = Ret messages → messages ≠ [] →
  list_messages sv = Ret messages.
Proof.
  unfold get_emails. destruct (list_messages sv) as [l|[]]; try done.
  by intros [= <-].
Qed.

Lemma main_from_saved s :
  saved_ids (trace s) = [] →
  wp (main_from sv) (λ _ s',
    NoDup (saved_ids (trace s'))
    ∧ ∀ i, In i (saved_ids (trace s')) →
        i ∈ processed_email_ids s'
        ∧ ∃ messages, list_messages sv = Ret messages ∧ In i messages) s.
Proof.
  intros Hs. unfold main_from.
  repeat wp_step;
    try (simpl; rewrite Hs; split; [apply NoDup_nil_2|by intros ? []]).
  match goal with
  | H : get_emails sv = Ret ?l |- _ =>
      apply get_emails_listed in H; [|done]; rename H into Hlist;
      set (messages := l) in *
  end.
  eapply wp_mono;
    [apply (wp_for_each_in
              (λ s', NoDup (saved_ids (trace s'))
                     ∧ ∀ i, In i (saved_ids (trace s')) →
                         i ∈ processed_email_ids s' ∧ In i messages))|].
  - intros x t Hx [Hnd Hin]. eapply wp_mono; [apply process_message_events|].
    intros r t' (Hsub & tr & -> & _ & Hsaved & _). rewrite saved_ids_app.
    destruct Hsaved as [->|(-> & Hnew & Hrec)].
    + rewrite app_nil_r. split; [done|]. intros i Hi.
      destruct (Hin i Hi). split; [by apply Hsub|done].
    + split.
      * apply NoDup_app. split; [done|]. split; [|apply NoDup_singleton].
        intros i Hi Hi'. apply list_elem_of_singleton in Hi' as ->.
        apply list_elem_of_In, Hin in Hi as [? _]. done.
      * intros i Hi. apply in_app_or in Hi as [Hi|[<-|[]]]; [|done].
        destruct (Hin i Hi). split; [by apply Hsub|done].
  - simpl. rewrite Hs. split; [apply NoDup_nil_2|by intros ? []].
  - intros r t [Hnd Hin].
    assert (∀ tr, tr = trace t ∨ (∃ n u, tr = (trace t ++ [EvSend n u])%list) →
              NoDup (saved_ids tr)
              ∧ ∀ i, In i (saved_ids tr) →
                  i ∈ processed_email_ids t
                  ∧ ∃ messages, list_messages sv = Ret messages
                                ∧ In i messages) as Hend.
    { intros tr Htr.
      assert (saved_ids tr = saved_ids (trace t)) as ->.
      { destruct Htr as [->|(n & u & ->)]; [done|].
        rewrite saved_ids_app. simpl. by rewrite app_nil_r. }
      split; [done|]. intros i Hi. destruct (Hin i Hi). eauto. }
    destruct r as [[]|e]; [|apply Hend; by left].
    unfold notify, wp, bind, get. simpl.
    destruct (new_opportunities_to_notify t);
      destruct (updated_opportunities_to_notify t);
      destruct (telegram_configured sv); simpl;
      apply Hend; eauto.
Qed.

(** X15. No identifier is recorded twice in a run, and every
    identifier recorded is one the mailbox listed and is in the set in
    memory when the run ends. *)
Theorem recorded_once (f : processed_file) (w : W) :
  let s' := snd (main sv f w) in
  NoDup (saved_ids (trace s'))
  ∧ ∀ i, In i (saved_ids (trace s')) →
      i ∈ processed_email_ids s'
      ∧ ∃ messages, list_messages sv = Ret messages ∧ In i messages.
Proof. unfold main. by apply main_from_saved. Qed.

(** X16. A mailbox listing that fails with [HttpError] is handled as an
    empty mailbox: past the load and the reading of the first column,
    the run ends normally with no effect on the spreadsheet and no
    notification. *)
Theorem listing_failure_is_empty_mailbox (f : processed_file) (w : W)
    (loaded : gset string * processed_file) (column : list string) :
  list_messages sv = Raise HttpError ∨ list_messages sv = Ret [] →
  load_processed_emails (now sv) RETENTION_DAYS f = Ret loaded →
  col_values sv w 1 = Ret column →
  main sv f w
  = (Ret tt,
     {| processed_email_ids := loaded.1;
        existing_thread_ids := list_to_set (drop 3 column);
        new_opportunities_to_notify := [];
        updated_opportunities_to_notify := [];
        file := loaded.2;
        worksheet := w;
        trace := [] |}).
Proof.
  intros Hlist Hload Hcol.
  unfold main, main_from, bind, get, lift, modify, sheet_read. simpl.
  rewrite Hload. simpl. rewrite Hcol. unfold get_emails.
  by destruct Hlist as [->| ->].
Qed.

Lemma main_from_raises s :
  wp (main_from sv) (λ r _,
    ∀ e, r = Raise e →
      load_processed_emails (now sv) RETENTION_DAYS (file s) = Raise e
      ∨ col_values sv (worksheet s) 1 = Raise e
      ∨ (list_messages sv = Raise e ∧ e ≠ HttpError)
      ∨ (∃ email_text,
           generate_content sv (OpportunityPrompt email_text) = Raise e)
      ∨ (∃ w row, append_row sv w row = Raise e)) s.
Proof.
  unfold main_from.
  repeat wp_step; cbn [worksheet file] in *; try (intros ? [=]); subst.
  - eapply wp_mono;
      [apply (wp_for_each_raise
                (λ e, (∃ email_text,
                         generate_content sv (OpportunityPrompt email_text)
                         = Raise e)
                      ∨ (∃ w row, append_row sv w row = Raise e)))|].
    + intros x t. eapply wp_mono; [apply process_message_raises|].
      intros r t' H e He. destruct (H e He) as [[text Ht]|?]; [left|by right].
      exists text. unfold is_opportunity_ai_check in Ht.
      destruct (generate_content sv (OpportunityPrompt text)) as [x0|e0];
        simpl in Ht; [done|]. by injection Ht as ->.
    + intros [[]|e] t H.
      * eapply wp_mono; [apply notify_spec|]. by intros r t' (-> & _) e [=].
      * intros e' [= <-]. right; right; right. by apply H.
  - right; right; left. unfold get_emails in *.
    destruct (list_messages sv) as [l|[]]; try done; split; congruence.
  - by right; left.
  - by left.
Qed.

(** X17. A run ends with an exception only if the load of the backing
    file, the reading of the first column, the mailbox listing (other
    than [HttpError]), the model call of the classifier or [append_row]
    raised it: a failure of [find], [row_values], [update],
    [batch_update] or of either extraction never ends the run. *)
Theorem run_aborts_only_from (f : processed_file) (w : W) (e : exn) :
  fst (main sv f w) = Raise e →
  load_processed_emails (now sv) RETENTION_DAYS f = Raise e
  ∨ col_values sv w 1 = Raise e
  ∨ (list_messages sv = Raise e ∧ e ≠ HttpError)
  ∨ (∃ email_text,
       generate_content sv (OpportunityPrompt email_text) = Raise e)
  ∨ (∃ w' row, append_row sv w' row = Raise e).
Proof. unfold main. apply main_from_raises. Qed.

End ReconcilerMore.

Lemma early_exit_only_records_witness :
  let sv := Double.scenario (Ret [Scenario.fresh_id]) Scenario.mailbox
              (λ _, Ret "No.") Double.grid_find Scenario.clock in
  let s := {| processed_email_ids := ∅; existing_thread_ids := ∅;
              new_opportunities_to_notify := [];
              updated_opportunities_to_notify := [];
              file := None; worksheet := Scenario.empty_sheet;
              trace := [] |} in
  trace (snd (process_message sv Scenario.fresh_id s))
  = [EvSave Scenario.fresh_id].
Proof.
  intros sv s.
  rewrite (early_exit_only_records sv Scenario.fresh_id s).
  - reflexivity.
  - apply not_elem_of_empty.
  - simpl. right. right. vm_compute. reflexivity.
Defined.

Lemma file_mirrors_set_witness :
  file_ids (file (snd (main Scenario.fresh_run None Scenario.empty_sheet)))
  = processed_email_ids
      (snd (main Scenario.fresh_run None Scenario.empty_sheet)).
Proof.
  apply (file_mirrors_set Scenario.fresh_run None Scenario.empty_sheet).
  eexists. vm_compute. reflexivity.
Defined.

Lemma no_append_for_listed_thread_witness :
  ∃ thread_id,
    JStr "T1" = JStr thread_id
    ∧ thread_id ∉ drop 3 (Double.grid_col_values Scenario.empty_sheet 1).
Proof.
  apply (no_append_for_listed_thread Scenario.fresh_run None
           Scenario.empty_sheet _ (JStr "T1")).
  - reflexivity.
  - vm_compute. left. reflexivity.
Defined.

Lemma recorded_once_witness :
  NoDup (saved_ids
           (trace (snd (main Scenario.two_in_thread None
                          Scenario.empty_sheet)))).
Proof.
  apply (proj1 (recorded_once Scenario.two_in_thread None
                  Scenario.empty_sheet)).
Defined.

Lemma listing_failure_is_empty_mailbox_witness :
  fst (main (Double.scenario (Raise HttpError) Scenario.mailbox Scenario.model
               Double.grid_find Scenario.clock)
         None Scenario.sheet_with_T1)
  = Ret tt.
Proof.
  rewrite (listing_failure_is_empty_mailbox
             (Double.scenario (Raise HttpError) Scenario.mailbox Scenario.model
                Double.grid_find Scenario.clock)
             None Scenario.sheet_with_T1 (∅, None)
             (Double.grid_col_values Scenario.sheet_with_T1 1)).
  - reflexivity.
  - left. reflexivity.
  - reflexivity.
  - reflexivity.
Defined.

Lemma run_aborts_only_from_witness :
  ∃ email_text,
    generate_content Scenario.classifier_down (OpportunityPrompt email_text)
    = Raise OtherError.
Proof.
  destruct (run_aborts_only_from Scenario.classifier_down None
              Scenario.empty_sheet OtherError)
    as [H|[H|[[H _]|[H|(w & row & H)]]]].
  - vm_compute. reflexivity.
  - discriminate H.
  - discriminate H.
  - discriminate H.
  - exact H.
  - discriminate H.
Defined.

(** ** The notification text *)

Lemma escape_text_head text c rest :
  escape_text text = String c rest → Py.has_char c escape_chars = false.
Proof.
  destruct text as [|a r]; simpl; [done|].
  destruct (Py.has_char a escape_chars) eqn:E; intros [= <- _]; [|done].
  reflexivity.
Qed.

(** X18. In the text [sanitize_telegram_markdown] returns, every
    character of [escape_chars] stands right after a backslash; and a
    text with none of these characters is returned as it is. *)
Theorem sanitize_escapes_every_reserved (text : string) :
  (∀ i c, Py.chars (escape_text text) !! i = Some c →
     Py.has_char c escape_chars = true →
     ∃ j, i = S j ∧ Py.chars (escape_text text) !! j = Some "\"%char)
  ∧ ((∀ c, In c (Py.chars text) → Py.has_char c escape_chars = false) →
     escape_text text = text).
Proof.
  split.
  - induction text as [|a r IH]; intros i c; simpl; [done|].
    destruct (Py.has_char a escape_chars) eqn:E; simpl.
    + destruct i as [|[|i]]; simpl.
      * intros H Hc. injection H as H. subst c. vm_compute in Hc.
        discriminate Hc.
      * intros _ _. by exists 0%nat.
      * intros Hi Hc. destruct (IH i c Hi Hc) as (j & -> & Hj).
        by exists (S (S j)).
    + destruct i as [|i]; simpl.
      * intros H Hc. injection H as H. subst c. congruence.
      * intros Hi Hc. destruct (IH i c Hi Hc) as (j & -> & Hj).
        by exists (S j).
  - induction text as [|a r IH]; simpl; [done|]. intros H.
    rewrite (H a) by (by left). f_equal. apply IH. intros c Hc. apply H.
    by right.
Qed.

(** X19. Escaping loses nothing: two texts with the same escaped text
    are the same text. *)
Theorem sanitize_injective (text1 text2 : string) :
  escape_text text1 = escape_text text2 → text1 = text2.
Proof.
  revert text2. induction text1 as [|a r IH]; intros [|b t]; simpl.
  - done.
  - by destruct (Py.has_char b escape_chars).
  - by destruct (Py.has_char a escape_chars).
  - destruct (Py.has_char a escape_chars) eqn:Ea,
      (Py.has_char b escape_chars) eqn:Eb.
    + intros [= -> H]. f_equal. by apply IH.
    + intros [= <- H]. symmetry in H. apply escape_text_head in H. congruence.
    + intros [= -> H]. apply escape_text_head in H. congruence.
    + intros [= -> H]. f_equal. by apply IH.
Qed.

Lemma dict_keys_set key v d :
  dict_keys (dict_set key v d)
  = if dict_mem key d then dict_keys d else (dict_keys d ++ [key])%list.
Proof.
  induction d as [|[k w] d IH]; simpl; [done|].
  destruct (String.eqb k key); simpl; [done|]. rewrite IH.
  by destruct (dict_mem key d).
Qed.

Lemma dict_set_nodup key v d :
  NoDup (dict_keys d) → NoDup (dict_keys (dict_set key v d)).
Proof.
  intros Hnd. rewrite dict_keys_set. destruct (dict_mem key d) eqn:E; [done|].
  apply NoDup_app. split; [done|]. split; [|apply NoDup_singleton].
  intros k Hk Hk'. apply list_elem_of_singleton in Hk' as ->.
  apply list_elem_of_In in Hk.
  assert (dict_get key d ≠ None) as Hg by (by rewrite dict_get_none; intros ?).
  destruct (dict_get key d) eqn:Eg; [|done].
  assert (dict_mem key d = true) by (apply dict_mem_get; eauto). congruence.
Qed.

Lemma original_data_dict_from_nodup hs rs acc :
  NoDup (dict_keys acc) → NoDup (dict_keys (original_data_dict_from hs rs acc)).
Proof.
  revert rs acc. induction hs as [|h hs IH]; intros rs acc Hnd; [done|].
  simpl. apply IH. by apply dict_set_nodup.
Qed.

Lemma dict_get_of_in key v d :
  NoDup (dict_keys d) → In (key, v) d → dict_get key d = Some v.
Proof.
  induction d as [|[k w] d IH]; simpl; [done|]. intros Hnd Hin.
  apply NoDup_cons in Hnd as [Hk Hnd].
  destruct Hin as [[= -> ->]|Hin]; [by rewrite String.eqb_refl|].
  destruct (String.eqb_spec k key) as [->|Hne]; [|by apply IH].
  exfalso. apply Hk, list_elem_of_In, in_map_iff. by exists (key, v).
Qed.

Lemma changes_nil repr str_title original_data merged_data :
  changes repr str_title original_data merged_data = []
  ↔ ∀ key new_value, In (key, new_value) merged_data →
      dict_mem key original_data
      && negb (py_eq new_value (dict_get_default key JNull original_data))
      = false.
Proof.
  unfold changes. induction merged_data as [|[k v] d IH]; simpl.
  - split; [by intros _ ? ? []|done].
  - destruct (dict_mem k original_data && _) eqn:E; simpl.
    + split; [done|]. intros H. specialize (H k v (or_introl eq_refl)).
      congruence.
    + rewrite IH. split.
      * intros H key nv [[= <- <-]|Hin]; [done|by apply H].
      * intros H key nv Hin. apply H. by right.
Qed.

(** X20. An update of a stored row yields an update message exactly
    when the merge changed the row: every update queued for the summary
    has its message, and a merge that changed nothing would have
    none. *)
Theorem update_message_iff_changed (repr : json → string)
    (str_title : string → string) (column_headers row_values : list string)
    (row : nat) (updated_data_json : dict) :
  NoDup (dict_keys updated_data_json) →
  let original := original_data_dict column_headers row_values in
  let m := merge column_headers row original updated_data_json in
  is_Some (format_update_for_telegram repr str_title original (merged_data m))
  ↔ has_changed m = true.
Proof.
  intros Hnd original m.
  assert (is_Some (format_update_for_telegram repr str_title original
                     (merged_data m))
          ↔ changes repr str_title original (merged_data m) ≠ []) as ->.
  { unfold format_update_for_telegram.
    destruct (changes _ _ _ _); split; try done; try (by intros [? ?]);
      eauto. }
  rewrite changes_nil. split.
  - intros Hch. destruct (has_changed m) eqn:E; [done|]. exfalso. apply Hch.
    destruct (merge_unchanged column_headers row original _ E) as [Hm _].
    fold m in Hm. rewrite Hm.
    intros key new_value Hin.
    assert (dict_get key original = Some new_value) as Hget.
    { apply dict_get_of_in; [|done].
      by apply original_data_dict_from_nodup, NoDup_nil_2. }
    destruct (original_data_dict_str _ _ _ _ Hget) as [s ->].
    unfold dict_get_default. rewrite Hget. simpl.
    by rewrite String.eqb_refl, andb_false_r.
  - intros Hch Hno.
    unfold m in Hch.
    rewrite (merge_has_changed column_headers row original _ Hnd) in Hch.
    apply existsb_exists in Hch as ([k v] & Hin & Ho).
    unfold passes in Ho. simpl in Ho.
    assert (dict_get k (merged_data m) = Some v) as Hget.
    { unfold m, merge. rewrite (merge_fold_key _ _ _ _ k v) by done.
      simpl. by rewrite Ho. }
    specialize (Hno k v (dict_get_in _ _ _ Hget)).
    rewrite overwrites_get in Ho.
    destruct (dict_get k original) as [stored|] eqn:Hs; [|done].
    destruct (original_data_dict_str _ _ _ _ Hs) as [s ->].
    assert (dict_mem k original = true) as Hmem by (apply dict_mem_get; eauto).
    unfold dict_get_default in Hno. rewrite Hmem, Hs in Hno. simpl in Hno.
    apply andb_true_iff in Ho as [_ Ho]. apply negb_true_iff in Ho.
    apply negb_false_iff in Hno. apply py_eq_str_r in Hno as ->.
    simpl in Ho. by rewrite String.eqb_refl in Ho.
Qed.

Lemma sanitize_escapes_every_reserved_witness :
  escape_text "N/A" = "N/A".
Proof.
  apply (proj2 (sanitize_escapes_every_reserved "N/A")).
  intros c [<-|[<-|[<-|[]]]]; reflexivity.
Defined.

Lemma sanitize_injective_witness : "2025-08-01" = "2025-08-01".
Proof. apply (sanitize_injective "2025-08-01" "2025-08-01"). reflexivity. Defined.

Lemma update_message_iff_changed_witness :
  is_Some
    (format_update_for_telegram (λ _, "") ascii_title
       (original_data_dict Scenario.headers (nth 3 Scenario.sheet_with_T1 []))
       (merged_data
          (merge Scenario.headers 4
             (original_data_dict Scenario.headers
                (nth 3 Scenario.sheet_with_T1 []))
             [("Role Title", JStr "Senior Intern")]))).
Proof.
  apply (proj2 (update_message_iff_changed (λ _, "") ascii_title
                  Scenario.headers (nth 3 Scenario.sheet_with_T1 []) 4
                  [("Role Title", JStr "Senior Intern")]
                  ltac:(apply (bool_decide_unpack _); vm_compute; exact I))).
  vm_compute. reflexivity.
Defined.

(** ** Reading a message *)

Lemma all_parts_unfold part :
  all_parts part = part :: flat_map all_parts (Mailbox.children part).
Proof.
  by destruct part as [m f b [l|]].
Qed.

Lemma part_count_unfold part :
  Mailbox.part_count part
  = S (list_sum (map Mailbox.part_count (Mailbox.children part))).
Proof.
  destruct part as [m f b [l|]]; simpl; [|done]. f_equal.
  induction l as [|q r IH]; [done|]. simpl. by rewrite IH.
Qed.

Lemma fuel_of_payload payload :
  (list_sum (map Mailbox.part_count [payload]) <= Mailbox.part_count payload)%nat.
Proof.
  change (Mailbox.part_count payload + 0 <= Mailbox.part_count payload)%nat.
  lia.
Qed.

Section MetadataFacts.
Context (messages_get : string → outcome message)
        (b64_utf8 : string → option string).

Lemma walk_attachments fuel queue body_text attachment_list body_text' l att :
  (list_sum (map Mailbox.part_count queue) <= fuel)%nat →
  Mailbox.walk b64_utf8 fuel queue body_text attachment_list
  = Some (body_text', l) →
  In att l
  ↔ In att attachment_list
    ∨ ∃ part, In part (flat_map all_parts queue)
              ∧ Mailbox.part_attachment part = Some att.
Proof.
  revert queue body_text attachment_list.
  induction fuel as [|fuel IH]; intros queue body_text attachment_list Hfuel.
  - destruct queue as [|part rest].
    + simpl. intros [= _ <-]. split; [tauto|]. by intros [?|(? & [] & _)].
    + simpl in Hfuel. rewrite part_count_unfold in Hfuel. lia.
  - destruct queue as [|part rest].
    + simpl. intros [= _ <-]. split; [tauto|]. by intros [?|(? & [] & _)].
    + cbn [Mailbox.walk]. intros Hwalk.
      assert (list_sum (map Mailbox.part_count (rest ++ Mailbox.children part))
              <= fuel)%nat as Hfuel'.
      { rewrite map_app, list_sum_app. simpl in Hfuel.
        rewrite part_count_unfold in Hfuel. lia. }
      assert (∀ b, Mailbox.walk b64_utf8 fuel (rest ++ Mailbox.children part)%list b
                     match Mailbox.part_attachment part with
                     | Some a => (attachment_list ++ [a])%list
                     | None => attachment_list
                     end = Some (body_text', l) →
                   In att l
                   ↔ In att attachment_list
                     ∨ ∃ p, In p (flat_map all_parts (part :: rest))
                            ∧ Mailbox.part_attachment p = Some att) as Hstep.
      { intros b Hb. rewrite (IH _ _ _ Hfuel' Hb).
        cbn [flat_map]. rewrite all_parts_unfold, flat_map_app.
        split.
        - intros [Hin|(p & Hp & Hatt)].
          + destruct (Mailbox.part_attachment part) as [a|] eqn:Ea; [|by left].
            apply in_app_or in Hin as [?|[<-|[]]]; [by left|right].
            exists part. split; [by left|done].
          + right. exists p. split; [|done].
            apply in_app_or in Hp as [Hp|Hp].
            * apply in_or_app. by right.
            * apply in_or_app. left. right. done.
        - intros [Hin|(p & Hp & Hatt)].
          + left. destruct (Mailbox.part_attachment part); [|done].
            apply in_or_app. by left.
          + apply in_app_or in Hp as [[<-|Hp]|Hp].
            * left. rewrite Hatt. apply in_or_app. right. by left.
            * right. exists p. split; [|done]. apply in_or_app. by right.
            * right. exists p. split; [|done]. apply in_or_app. by left. }
      destruct (Mailbox.plain_data part) as [d|]; [|by eapply Hstep].
      destruct (b64_utf8 d); [by eapply Hstep|done].
Qed.

Lemma walk_none fuel queue body_text attachment_list :
  (list_sum (map Mailbox.part_count queue) <= fuel)%nat →
  Mailbox.walk b64_utf8 fuel queue body_text attachment_list = None
  ↔ ∃ part encoded_body,
      In part (flat_map all_parts queue)
      ∧ Mailbox.plain_data part = Some encoded_body
      ∧ b64_utf8 encoded_body = None.
Proof.
  revert queue body_text attachment_list.
  induction fuel as [|fuel IH]; intros queue body_text attachment_list Hfuel.
  - destruct queue as [|part rest].
    + simpl. split; [done|]. by intros (? & ? & [] & _).
    + simpl in Hfuel. rewrite part_count_unfold in Hfuel. lia.
  - destruct queue as [|part rest].
    + simpl. split; [done|]. by intros (? & ? & [] & _).
    + cbn [Mailbox.walk].
      assert (list_sum (map Mailbox.part_count (rest ++ Mailbox.children part))
              <= fuel)%nat as Hfuel'.
      { rewrite map_app, list_sum_app. simpl in Hfuel.
        rewrite part_count_unfold in Hfuel. lia. }
      assert (∀ P : message_part → Prop,
                (∃ p, In p (flat_map all_parts (rest ++ Mailbox.children part))
                      ∧ P p)
                ∨ P part
                ↔ ∃ p, In p (flat_map all_parts (part :: rest)) ∧ P p) as Hq.
      { intros P. cbn [flat_map]. rewrite all_parts_unfold, flat_map_app.
        split.
        - intros [(p & Hp & HP)|HP].
          + exists p. split; [|done]. apply in_app_or in Hp as [Hp|Hp].
            * apply in_or_app. by right.
            * apply in_or_app. left. by right.
          + exists part. split; [by left|done].
        - intros (p & Hp & HP). apply in_app_or in Hp as [[<-|Hp]|Hp].
          + by right.
          + left. exists p. split; [|done]. apply in_or_app. by right.
          + left. exists p. split; [|done]. apply in_or_app. by left. }
      specialize (Hq (λ p, ∃ d, Mailbox.plain_data p = Some d ∧ b64_utf8 d = None)).
      assert ((∃ part0 encoded_body,
                 In part0 (flat_map all_parts (part :: rest))
                 ∧ Mailbox.plain_data part0 = Some encoded_body
                 ∧ b64_utf8 encoded_body = None)
              ↔ ∃ p, In p (flat_map all_parts (part :: rest))
                     ∧ ∃ d, Mailbox.plain_data p = Some d ∧ b64_utf8 d = None)
        as -> by (split; intros H; decompose [ex and] H; eauto 6).
      rewrite <- Hq.
      destruct (Mailbox.plain_data part) as [d|] eqn:Ed.
      * destruct (b64_utf8 d) eqn:Eb.
        -- rewrite IH by done. split.
           ++ intros (p & e & Hp & Hd & He). left. eauto.
           ++ intros [(p & Hp & e & Hd & He)|(e & [= <-] & He)]; [eauto|congruence].
        -- split; [|done]. intros _. right. eauto.
      * rewrite IH by done. split.
        -- intros (p & e & Hp & Hd & He). left. eauto.
        -- intros [(p & Hp & e & Hd & He)|(e & [=] & _)]. eauto.
Qed.

(** X21. When [get_email_metadata] returns, its attachment list holds
    exactly the attachments of the parts of the payload, at any depth:
    those with a file name that is not empty and an attachment
    identifier, under the lowered file name. *)
Theorem attachments_listed (msg_id : string) (details : email_metadata) :
  Mailbox.get_email_metadata messages_get b64_utf8 msg_id = Some details →
  ∃ message payload,
    messages_get msg_id = Ret message
    ∧ g_payload message = Some payload
    ∧ ∀ att, In att (m_attachment_ids details)
             ↔ ∃ part, In part (all_parts payload)
                       ∧ Mailbox.part_attachment part = Some att.
Proof.
  unfold Mailbox.get_email_metadata.
  destruct (messages_get msg_id) as [message|] eqn:Hget; [|done].
  destruct (g_payload message) as [payload|] eqn:Hpayload; [|done]. simpl.
  destruct (g_headers message) as [headers|]; [|done]. simpl.
  destruct (Mailbox.header_value "from" headers) as [sender_raw|]; [|done].
  simpl.
  destruct (Mailbox.walk _ _ _ _ _) as [[body_text l]|] eqn:Hwalk; [|done].
  simpl.
  destruct (g_id message); [|done]. simpl.
  destruct (g_threadId message); [|done]. simpl.
  destruct (Mailbox.header_value "subject" headers); [|done]. simpl.
  intros [= <-]. exists message, payload. split; [done|]. split; [done|].
  intros att. simpl.
  rewrite (walk_attachments _ _ _ _ _ _ att (fuel_of_payload payload) Hwalk).
  simpl. rewrite app_nil_r. split; [|by right].
  by intros [[]|?].
Qed.

(** X22. [get_email_metadata] gives [None] exactly when the fetch
    raises, the payload, its headers, the message identifier or the
    thread identifier is missing, there is no [From] or no [Subject]
    header, or the data of some [text/plain] part, at any depth, does
    not decode; the traversal itself always ends. *)
Theorem metadata_none_iff (msg_id : string) :
  Mailbox.get_email_metadata messages_get b64_utf8 msg_id = None
  ↔ match messages_get msg_id with
    | Raise _ => True
    | Ret message =>
        g_id message = None ∨ g_threadId message = None
        ∨ match g_headers message with
          | None => True
          | Some headers =>
              Mailbox.header_value "from" headers = None
              ∨ Mailbox.header_value "subject" headers = None
          end
        ∨ match g_payload message with
          | None => True
          | Some payload =>
              ∃ part encoded_body,
                In part (all_parts payload)
                ∧ Mailbox.plain_data part = Some encoded_body
                ∧ b64_utf8 encoded_body = None
          end
    end.
Proof.
  unfold Mailbox.get_email_metadata.
  destruct (messages_get msg_id) as [message|]; [|done].
  destruct (g_payload message) as [payload|]; simpl; [|tauto].
  destruct (g_headers message) as [headers|]; simpl; [|tauto].
  destruct (Mailbox.header_value "from" headers) as [sender_raw|]; simpl;
    [|tauto].
  pose proof (walk_none (Mailbox.part_count payload) [payload] "" []
                (fuel_of_payload payload)) as Hnone.
  simpl in Hnone. rewrite app_nil_r in Hnone.
  destruct (Mailbox.walk _ _ _ _ _) as [[body_text l]|] eqn:Hwalk; simpl.
  - assert (¬ ∃ part encoded_body,
                In part (all_parts payload)
                ∧ Mailbox.plain_data part = Some encoded_body
                ∧ b64_utf8 encoded_body = None) as Hall.
    { intros H. apply Hnone in H. done. }
    destruct (g_id message); simpl; [|tauto].
    destruct (g_threadId message); simpl; [|tauto].
    destruct (Mailbox.header_value "subject" headers); simpl; [|tauto].
    split; [done|]. intros [?|[?|[[?|?]|?]]]; done.
  - split; [|done]. intros _. right; right; right. by apply Hnone.
Qed.

End MetadataFacts.





Lemma append_empty s : s +:+ "" = s.
Proof. induction s as [|a s IH]; [done|]. by rewrite append_cons, IH. Qed.




(** ** Reading the attachments *)

Section AttachmentFacts.
Context (read_pdf : string → string → outcome (list (outcome (option string))))
        (read_docx : string → string → outcome (list string)).

Lemma pages_text_app pages text :
  Mailbox.pages_text pages text = text +:+ Mailbox.pages_text pages "".
Proof.
  revert text. induction pages as [|[[t|]|e] r IH]; intros text; simpl.
  - by rewrite append_empty.
  - rewrite append_nil, (IH (text +:+ t)), (IH t). by rewrite append_assoc.
  - apply IH.
  - by rewrite append_empty.
Qed.

(** X24. An attachment that is not read contributes nothing and
    disturbs nothing: with a file name that ends in neither [.pdf] nor
    [.docx], or with a fetch or an opening that raises, the text is
    what it is without that attachment. *)
Theorem unreadable_attachment_skipped (msg_id : string)
    (before_it after_it : list attachment) (att : attachment) :
  (endswith ".pdf" (att_filename att) = false
   ∧ endswith ".docx" (att_filename att) = false)
  ∨ (endswith ".pdf" (att_filename att) = true
     ∧ ∃ e, read_pdf msg_id (att_id att) = Raise e)
  ∨ (endswith ".pdf" (att_filename att) = false
     ∧ ∃ e, read_docx msg_id (att_id att) = Raise e) →
  Mailbox.fetch_and_parse_attachments read_pdf read_docx msg_id
    (before_it ++ att :: after_it)
  = Mailbox.fetch_and_parse_attachments read_pdf read_docx msg_id
      (before_it ++ after_it).
Proof.
  intros H. unfold Mailbox.fetch_and_parse_attachments.
  rewrite !fold_left_app. cbn [fold_left]. f_equal. f_equal.
  unfold Mailbox.attachment_text.
  destruct H as [[-> ->]|[[-> [e ->]]|[-> [e ->]]]]; simpl; [done|done|].
  by destruct (endswith ".docx" (att_filename att)).
Qed.

(** X25. A page whose text extraction raises ends the reading of its
    PDF: the text of the pages before it is kept, whatever pages follow
    are not read, and the text gathered from earlier attachments
    stays. *)
Theorem pages_before_failure_kept
    (pages_before pages_after : list (outcome (option string)))
    (e : exn) (text : string) :
  Forall (λ page, ∃ t, page = Ret t) pages_before →
  Mailbox.pages_text (pages_before ++ Raise e :: pages_after)%list text
  = text +:+ Mailbox.pages_text pages_before "".
Proof.
  intros Hbefore. rewrite pages_text_app. f_equal.
  induction Hbefore as [|page r [t ->] _ IH]; [done|].
  cbn [app Mailbox.pages_text]. destruct t as [t|]; [|done].
  rewrite append_nil, pages_text_app, (pages_text_app r t). by rewrite IH.
Qed.

End AttachmentFacts.

Lemma attachments_listed_witness :
  ∃ message payload,
    Ret Sample.sample = Ret message
    ∧ g_payload message = Some payload
    ∧ ∀ att, In att [{| att_id := "A1"; att_filename := "cv.pdf" |};
                     {| att_id := "A2"; att_filename := "offer.docx" |}]
             ↔ ∃ part, In part (all_parts payload)
                       ∧ Mailbox.part_attachment part = Some att.
Proof.
  apply (attachments_listed (λ _, Ret Sample.sample) Sample.plain "m"
           {| m_id := "0197c4fffc000000";
              m_threadId := "T1";
              m_sender_raw := "HR Cell <HR@iitm.ac.in>";
              m_sender_email := "hr@iitm.ac.in";
              m_subject := "Research Internship opening";
              m_body := "by August Apply";
              m_attachment_ids :=
                [{| att_id := "A1"; att_filename := "cv.pdf" |};
                 {| att_id := "A2"; att_filename := "offer.docx" |}] |}).
  vm_compute. reflexivity.
Defined.

Lemma metadata_none_iff_witness :
  Mailbox.get_email_metadata
    (λ _, Ret {| g_id := Some "0197c4fffc000000"; g_threadId := Some "T1";
                 g_headers := Some [{| h_name := "From";
                                       h_value := "hr@iitm.ac.in" |}];
                 g_payload := Some Sample.payload |})
    Sample.plain "m"
  = None.
Proof.
  apply (proj2 (metadata_none_iff _ Sample.plain "m")).
  simpl. right. right. left. right. reflexivity.
Defined.


Lemma unreadable_attachment_skipped_witness :
  Mailbox.fetch_and_parse_attachments
    (λ _ _, Ret [Ret (Some "Stipend: 5000")]) (λ _ _, Raise OtherError) "m"
    [{| att_id := "A0"; att_filename := "logo.png" |};
     {| att_id := "A1"; att_filename := "cv.pdf" |};
     {| att_id := "A2"; att_filename := "offer.docx" |}]
  = "Stipend: 5000".
Proof.
  rewrite (unreadable_attachment_skipped _ _ "m" []
             [{| att_id := "A1"; att_filename := "cv.pdf" |};
              {| att_id := "A2"; att_filename := "offer.docx" |}]
             {| att_id := "A0"; att_filename := "logo.png" |}).
  - vm_compute. reflexivity.
  - left. split; reflexivity.
Defined.

Lemma pages_before_failure_kept_witness :
  Mailbox.pages_text
    [Ret (Some "Page 1. "); Ret None; Raise OtherError; Ret (Some "Page 4.")]
    "Earlier. "
  = "Earlier. Page 1. ".
Proof.
  apply (pages_before_failure_kept [Ret (Some "Page 1. "); Ret None]
           [Ret (Some "Page 4.")] OtherError "Earlier. ").
  repeat constructor; eexists; reflexivity.
Defined.

(** ** The tests on texts *)

Lemma prefix_spec sub s :
  String.prefix sub s = true ↔ ∃ post, s = sub +:+ post.
Proof.
  revert s. induction sub as [|a sub IH]; intros s.
  - split; [|by destruct s]. intros _. by exists s.
  - destruct s as [|b s]; simpl.
    + split; [done|]. by intros [post [=]].
    + destruct (ascii_dec a b) as [->|Hne].
      * rewrite IH. split; intros [post H]; exists post.
        -- by rewrite append_cons, <- H.
        -- rewrite append_cons in H. by injection H.
      * split; [done|]. intros [post H]. rewrite append_cons in H.
        injection H as H _. congruence.
Qed.

Lemma contains_unfold sub s :
  Py.contains sub s
  = String.prefix sub s
    || match s with
       | EmptyString => false
       | String _ r => Py.contains sub r
       end.
Proof.
  destruct s as [|a r]; simpl.
  - by destruct (String.prefix sub "").
  - by destruct (String.prefix sub (String a r)).
Qed.

Lemma contains_spec sub s :
  Py.contains sub s = true ↔ ∃ pre post, s = pre +:+ sub +:+ post.
Proof.
  induction s as [|a s IH]; rewrite contains_unfold, orb_true_iff.
  - rewrite prefix_spec. split.
    + intros [[post ->]|?]; [|done]. by exists "", post.
    + intros (pre & post & H). left.
      destruct pre as [|b pre]; [|by rewrite append_cons in H].
      rewrite append_nil in H. eauto.
  - rewrite prefix_spec, IH. split.
    + intros [[post ->]|(pre & post & ->)]; [by exists "", post|].
      by exists (String a pre), post.
    + intros (pre & post & H). destruct pre as [|b pre].
      * left. rewrite append_nil in H. eauto.
      * right. rewrite append_cons in H. injection H as _ ->. eauto.
Qed.

(** X26. The test on the sender is a test for a part of the text: a
    message passes it exactly when its sender address holds
    [iitm.ac.in] somewhere, at its end or not. *)
Theorem trusted_domain_is_substring (email_metadata : email_metadata) :
  from_trusted_domain email_metadata = true
  ↔ ∃ pre post,
      m_sender_email email_metadata = pre +:+ "iitm.ac.in" +:+ post.
Proof.
  unfold from_trusted_domain. cbn [TRUSTED_DOMAINS existsb].
  rewrite orb_false_r. apply contains_spec.
Qed.


(** X28. Whenever the initial extraction returns a dictionary with a
    relevance score, the score is the text of an integer from 1 to
    10. *)
Theorem extracted_score_in_range {W} (sv : services W) (email : email_details)
    (resume : string) (extracted_data : dict) (score : json) :
  extract_initial_details_with_ai sv email resume = Some extracted_data →
  dict_get RELEVANCE_KEY extracted_data = Some score →
  ∃ n, (1 <= n <= 10)%Z ∧ score = JStr (Py.str_of_int n).
Proof.
  unfold extract_initial_details_with_ai.
  destruct (generate_content sv _) as [response|]; simpl; [|done].
  destruct (parse_ai_response sv response) as [[|item d]|]; simpl; try done.
  - by intros [= <-].
  - destruct (validate_relevance (item :: d)) as [validated|] eqn:Hv;
      simpl; [|done].
    intros [= <-] Hscore.
    destruct (dict_get RELEVANCE_KEY (item :: d)) as [old|] eqn:Hold.
    + destruct (validate_relevance_range _ _ _ Hold Hv) as (n & Hn & Hget).
      exists n. split; [done|]. congruence.
    + unfold validate_relevance in Hv. rewrite Hold in Hv.
      injection Hv as <-. congruence.
Qed.

Lemma trusted_domain_is_substring_witness :
  from_trusted_domain
    {| m_id := "m"; m_threadId := "T1";
       m_sender_raw := "x@iitm.ac.in.example.org";
       m_sender_email := "x@iitm.ac.in.example.org";
       m_subject := ""; m_body := ""; m_attachment_ids := [] |}
  = true.
Proof.
  apply (proj2 (trusted_domain_is_substring _)).
  exists "x@", ".example.org". reflexivity.
Defined.


Lemma extracted_score_in_range_witness :
  ∃ n, (1 <= n <= 10)%Z ∧ JStr "8" = JStr (Py.str_of_int n).
Proof.
  apply (extracted_score_in_range Scenario.fresh_run
           (Scenario.details Scenario.fresh_id) "B.Tech, data science"
           [("Role Title", JStr "Intern"); (RELEVANCE_KEY, JStr "8")]
           (JStr "8")); vm_compute; reflexivity.
Defined.

(** ** The update branch *)

Section UpdateBranch.
Context {W : Type} (sv : services W).

Lemma update_existing_false email_id email s :
  wp (update_existing sv email_id email) (λ r _,
    r = Ret false → find sv (worksheet s) (d_threadId email) = Ret None) s.
Proof.
  unfold update_existing.
  repeat wp_step; cbn [worksheet] in *; try (intros [=]); try done.
Qed.

(** X29. A follow-up in a known thread whose row is found (or whose
    lookup raises) is always recorded and never ends the run: whatever
    [row_values], the model call of the delta extraction, [update] or
    [batch_update] do, the turn ends normally with the identifier in
    the set and in the backing file. *)
Theorem update_failure_still_records (email_id : string) (s : run_state W)
    (email_metadata : email_metadata) :
  email_id ∉ processed_email_ids s →
  get_email_metadata sv email_id = Some email_metadata →
  from_trusted_domain email_metadata = true →
  has_keyword email_metadata = true →
  is_opportunity_ai_check sv (email_text_for_search email_metadata) = Ret true →
  m_threadId email_metadata ∈ existing_thread_ids s →
  find sv (worksheet s) (m_threadId email_metadata) ≠ Ret None →
  let s' := snd (process_message sv email_id s) in
  fst (process_message sv email_id s) = Ret tt
  ∧ email_id ∈ processed_email_ids s'
  ∧ file_ids (file s') = processed_email_ids s ∪ {[email_id]}
  ∧ appended_threads (trace s') = appended_threads (trace s).
Proof.
  intros Hnew Hmeta Htrust Hkey Hyes Hknown Hfound.
  unfold from_trusted_domain in Htrust.
  unfold has_keyword, email_text_for_search in Hkey.
  unfold email_text_for_search in Hyes.
  destruct (process_message sv email_id s) as [r s'] eqn:Hrun.
  cbn [fst snd]. revert Hrun.
  unfold process_message, bind, get, lift, try_except.
  rewrite bool_decide_eq_false_2 by done.
  rewrite Hmeta, Htrust. cbn [negb]. rewrite Hkey. cbn [negb].
  rewrite Hyes. cbn [negb].
  rewrite bool_decide_eq_true_2 by done.
  match goal with
  | |- context [update_existing sv email_id ?d s] => set (email := d)
  end.
  pose proof (update_existing_spec sv email_id email s) as Hspec.
  pose proof (update_existing_false email_id email s) as Hfalse.
  unfold wp in Hspec, Hfalse.
  destruct (update_existing sv email_id email s) as [[go_on|e] s1];
    cbn [fst snd] in Hspec, Hfalse;
    destruct Hspec as (Hproc & _ & _ & Hfile & tr & Htr & Happ & _).
  - destruct go_on; [|by specialize (Hfalse eq_refl)].
    unfold ret, save_processed, bind, emit, modify. simpl.
    intros [= <- <-]. simpl. rewrite Hproc, Htr.
    split; [done|]. split; [apply elem_of_add|].
    split; [apply list_to_set_elements|].
    rewrite !appended_threads_app, Happ. simpl. by rewrite !app_nil_r.
  - unfold ret, save_processed, bind, emit, modify. simpl.
    intros [= <- <-]. simpl. rewrite Hproc, Htr.
    split; [done|]. split; [apply elem_of_add|].
    split; [apply list_to_set_elements|].
    rewrite !appended_threads_app, Happ. simpl. by rewrite !app_nil_r.
Qed.

End UpdateBranch.

Lemma update_failure_still_records_witness :
  let sv := Double.scenario (Ret [Scenario.fresh_id]) Scenario.mailbox
              (λ p, match p with
                    | OpportunityPrompt _ => Ret "yes"
                    | _ => Raise OtherError
                    end)
              Double.grid_find Scenario.clock in
  let s := {| processed_email_ids := ∅; existing_thread_ids := {["T1"]};
              new_opportunities_to_notify := [];
              updated_opportunities_to_notify := [];
              file := None; worksheet := Scenario.sheet_with_T1;
              trace := [] |} in
  fst (process_message sv Scenario.fresh_id s) = Ret tt.
Proof.
  intros sv s.
  eapply (update_failure_still_records sv Scenario.fresh_id s).
  - apply not_elem_of_empty.
  - reflexivity.
  - vm_compute. reflexivity.
  - vm_compute. reflexivity.
  - vm_compute. reflexivity.
  - apply elem_of_singleton. reflexivity.
  - vm_compute. discriminate.
Defined.
